(** * Recursive feature addition (RFA) and its cross-validated wrapper (RFACV)

    A shallow embedding of [src/recursiveFeatureAddition.py].

    The collaborators that live outside the file are kept abstract or are
    modelled from their documented behaviour:
    - the data [X, y] and the estimator prototype only act through
      [clone(self.estimator).fit(X[:, features], y)]; they are bundled in an
      oracle [fit_on : list nat -> fitted] from the selected columns to the
      attributes the fitted estimator exposes. Fitting is deterministic and
      is taken to return on every column selection it is given (the empty one
      included, which scikit-learn's own estimators refuse with a
      ValueError); the input checks [check_X_y], [check_cv] and
      [check_scoring] are assumed to have passed;
    - [np.argsort] is a variable of the development; the theorems assume of
      it only that it returns a permutation of the positions of its argument.
      A concrete model of numpy's default [kind='quicksort'] is given in
      module [Numpy] and is used wherever a concrete run is evaluated;
    - a float64 is its exact value (a rational) or one of nan, +inf, -inf;
      every arithmetic result is rounded to the nearest binary64 value, ties
      to even, with gradual underflow and overflow to infinity. The sign of
      a zero is not kept: no operation of the file tells [-0.0] from [0.0]. *)

From Stdlib Require Import ZArith QArith Qround Lia.
From stdpp Require Import base list sets.

Set Default Proof Using "Type".
Local Open Scope nat_scope.

(** ** Python exceptions and results *)

Inductive exn : Type :=
  | ValueError      (* "Step must be >0", or a numpy/sklearn ValueError *)
  | RuntimeError    (* neither "coef_" nor "feature_importances_" *)
  | IndexError.     (* numpy index out of bounds *)

Inductive result (A : Type) : Type :=
  | Ok (a : A)
  | Raise (e : exn).
Arguments Ok {A} a.
Arguments Raise {A} e.

(** Exceptions propagate: [x ← r; k] runs [k] only when [r] returned. *)
#[export] Instance result_bind : MBind result := fun A B k r =>
  match r with
  | Ok a => k a
  | Raise e => Raise e
  end.

#[export] Instance result_ret : MRet result := fun A a => Ok a.

(** ** float64 values *)

Inductive float64 : Type :=
  | Fin (q : Q)
  | PInf
  | NInf
  | NaN.

(** Largest finite double, [(2 - 2^-52) * 2^1023]. *)
Definition f64_max : Q := inject_Z (2 ^ 1024 - 2 ^ 971).

Definition isfinite (x : float64) : bool :=
  match x with
  | Fin _ => true
  | _ => false
  end.

Definition isnan (x : float64) : bool :=
  match x with
  | NaN => true
  | _ => false
  end.

(** [2^e] for an integer exponent. *)
Definition Qpow2 (e : Z) : Q :=
  if (0 <=? e)%Z then inject_Z (2 ^ e) else 1 # Z.to_pos (2 ^ (- e)).

(** [floor(log2 (a / d))] for positive [a] and [d]. *)
Definition Qlog2 (a d : Z) : Z :=
  let e := (Z.log2 a - Z.log2 d)%Z in
  if Qle_bool (Qpow2 e) (a # Z.to_pos d) then e else (e - 1)%Z.

(** The integer nearest to [x], the even one of the two when [x] lies half
    way between them. *)
Definition round_half_even (x : Q) : Z :=
  let f := Qfloor x in
  match (x - inject_Z f ?= 1 # 2)%Q with
  | Lt => f
  | Gt => (f + 1)%Z
  | Eq => if Z.even f then f else (f + 1)%Z
  end.

(** The binary64 value of an exact result: round to nearest, ties to even,
    on 53 significant bits; below [2^-1022] the spacing stays [2^-1074]
    (subnormals, underflow to zero) and a result that rounds to [2^1024] or
    beyond is an infinity. *)
Definition f64_round (q : Q) : float64 :=
  if Qeq_bool q 0 then Fin 0
  else
    let e := Qlog2 (Z.abs (Qnum q)) (Zpos (Qden q)) in
    let ulp := Z.max (e - 52) (-1074) in
    let r := Qred (inject_Z (round_half_even (q * Qpow2 (- ulp))) * Qpow2 ulp) in
    if Qle_bool (Qpow2 1024) r then PInf
    else if Qle_bool r (- Qpow2 1024) then NInf
    else Fin r.

Definition f64_neg (x : float64) : float64 :=
  match x with
  | Fin q => Fin (- q)
  | PInf => NInf
  | NInf => PInf
  | NaN => NaN
  end.

Definition f64_sqr (x : float64) : float64 :=
  match x with
  | Fin q => f64_round (q * q)
  | PInf | NInf => PInf
  | NaN => NaN
  end.

Definition f64_add (x y : float64) : float64 :=
  match x, y with
  | NaN, _ | _, NaN => NaN
  | PInf, NInf | NInf, PInf => NaN
  | PInf, _ | _, PInf => PInf
  | NInf, _ | _, NInf => NInf
  | Fin a, Fin b => f64_round (a + b)
  end.

(** [x <= y] on floats: false as soon as one side is nan. *)
Definition f64_le (x y : float64) : bool :=
  match x, y with
  | NaN, _ | _, NaN => false
  | NInf, _ | _, PInf => true
  | _, NInf | PInf, _ => false
  | Fin a, Fin b => Qle_bool a b
  end.

(** [x / y] of numpy: a division by zero gives an infinity or nan (with a
    warning), it does not raise. *)
Definition f64_div (x y : float64) : float64 :=
  match x, y with
  | NaN, _ | _, NaN => NaN
  | PInf, Fin b => if Qle_bool 0 b then PInf else NInf
  | NInf, Fin b => if Qle_bool 0 b then NInf else PInf
  | (PInf | NInf), (PInf | NInf) => NaN
  | Fin _, (PInf | NInf) => Fin 0
  | Fin a, Fin b =>
      if Qeq_bool b 0 then
        match (a ?= 0)%Q with
        | Eq => NaN
        | Gt => PInf
        | Lt => NInf
        end
      else f64_round (a / b)
  end.

(** [float(n)] of an integer. *)
Definition f64_of_Z (n : Z) : float64 := f64_round (inject_Z n).

(** [x / n] for a float [x] and an integer [n] (numpy true division). *)
Definition f64_div_Z (x : float64) (n : Z) : float64 := f64_div x (f64_of_Z n).

(** ** Coefficient arrays

    [coef_] / [feature_importances_] is a 1-D array over the features, or a
    2-D array of shape (n_outputs, n_features), kept as its list of rows. *)

Inductive ndarray : Type :=
  | Arr1 (v : list float64)
  | Arr2 (rows : list (list float64)).

Definition arr_all (p : float64 -> bool) (a : ndarray) : bool :=
  match a with
  | Arr1 v => forallb p v
  | Arr2 rows => forallb (forallb p) rows
  end.

Definition arr_map (f : float64 -> float64) (a : ndarray) : ndarray :=
  match a with
  | Arr1 v => Arr1 (f <$> v)
  | Arr2 rows => Arr2 ((fun r : list float64 => f <$> r) <$> rows)
  end.

(** The array has one entry (one column) per feature of an [n]-column fit. *)
Definition has_columns (n : nat) (a : ndarray) : Prop :=
  match a with
  | Arr1 v => length v = n
  | Arr2 rows => rows <> [] /\ Forall (fun r => length r = n) rows
  end.

(** The array has no entry at all ([a.size == 0]): no row, or no column. *)
Definition arr_empty (a : ndarray) : bool :=
  match a with
  | Arr1 v => bool_decide (v = [])
  | Arr2 rows => forallb (fun r : list float64 => bool_decide (r = [])) rows
  end.

(** [sklearn.utils.safe_sqr]: [check_array(X, ensure_2d=False)] rejects nan
    and inf with a ValueError and an array without entries with another
    ValueError, then the array is squared elementwise. *)
Definition safe_sqr (a : ndarray) : result ndarray :=
  if negb (arr_all isfinite a) then Raise ValueError
  else if arr_empty a then Raise ValueError
  else Ok (arr_map f64_sqr a).

(** [np.nan_to_num]: nan becomes 0.0, +inf the largest finite double and
    -inf the most negative one. *)
Definition nan_to_num1 (x : float64) : float64 :=
  match x with
  | Fin q => Fin q
  | PInf => Fin f64_max
  | NInf => Fin (- f64_max)
  | NaN => Fin 0
  end.

Definition nan_to_num (a : ndarray) : ndarray := arr_map nan_to_num1 a.

(** [rows.sum(axis=0)]: the rows added up elementwise, one after the
    other, each addition rounded (the order numpy follows for an array in C
    order with two columns or more; with a single column there is a single
    key, whose value does not matter to the ranking). *)
Definition sum_axis0 (rows : list (list float64)) : list float64 :=
  match rows with
  | [] => []
  | r :: rs => foldl (zip_with f64_add) r rs
  end.

(** [-a] for the 1-D case, [-a.sum(axis=0)] for [ndim > 1]. *)
Definition neg_importance (sq : ndarray) : list float64 :=
  match sq with
  | Arr1 v => f64_neg <$> v
  | Arr2 rows => f64_neg <$> sum_axis0 rows
  end.

(** ** The fitted estimator *)

(** An attribute of the fitted estimator: it does not exist, it exists and
    is [None], or it holds an array. *)
Inductive attribute : Type :=
  | Missing
  | PyNone
  | Array (a : ndarray).

Record fitted : Type := {
  coef_ : attribute;
  feature_importances_ : attribute
}.

(** Lines 197-200: [coef_] if [hasattr] finds the attribute (also when it
    is [None]), else [getattr(estimator, 'feature_importances_', None)]. The
    result [None] is the [coefs is None] of line 201. *)
Definition get_coefs (e : fitted) : option ndarray :=
  match coef_ e with
  | Array c => Some c
  | PyNone => None
  | Missing =>
      match feature_importances_ e with
      | Array c => Some c
      | PyNone | Missing => None
      end
  end.

(** ** numpy indexing helpers *)

(** [a[mask]] for a boolean mask of the length of [a]. *)
Definition bool_index {A} (a : list A) (mask : list bool) : list A :=
  (filter (fun p => p.2 = true) (zip a mask)).*1.

(** [np.arange(n)] *)
Definition arange (n : nat) : list nat := seq 0 n.

(** [np.sum(mask)] of a boolean array. *)
Definition np_sum (mask : list bool) : nat :=
  length (filter (fun b => b = true) mask).

(** [a[idx]] for an integer index array; an index out of bounds raises. *)
Definition fancy_index {A} (a : list A) (idx : list nat) : result (list A) :=
  match mapM (fun i => a !! i) idx with
  | Some l => Ok l
  | None => Raise IndexError
  end.

(** [l[:k]] for a Python int [k]; a negative [k] counts from the end. *)
Definition slice_to {A} (k : Z) (l : list A) : list A :=
  if (0 <=? k)%Z then take (Z.to_nat k) l
  else take (length l - Z.to_nat (- k)) l.

(** [mask[idx] = b]. The positions written in this file are drawn from
    [np.arange(n)[mask]], hence in bounds. *)
Definition assign_at (idx : list nat) (b : bool) (mask : list bool) : list bool :=
  foldr (fun i m => <[i := b]> m) mask idx.

(** [ranking[np.logical_not(mask)] += 1] *)
Definition incr_where_not (mask : list bool) (ranking : list nat) : list nat :=
  zip_with (fun (b : bool) r => if b then r else S r) mask ranking.

(** [int(x)] of a Python number: truncation toward zero. *)
Definition py_int (x : Q) : Z := Z.quot (Qnum x) (Zpos (Qden x)).

(** [max(1, x)] of Python: the first argument unless the second is larger. *)
Definition py_max1 (x : Q) : Q := if Qle_bool x 1 then 1%Q else x.

(** ** The RFA object and its inputs *)

(** Constructor arguments of [RFA] that the algorithm reads. *)
Record RFA : Type := {
  n_features_to_select : option Z;   (* None: half of the features *)
  step : Q                           (* int or float *)
}.

(** The checked input [X, y] together with [self.estimator]:
    [shape1] is [X.shape[1]] and [fit_on features] is the estimator obtained
    by [clone(self.estimator)] and [.fit(X[:, features], y)]. The call is
    taken to return for every selection of columns: an estimator that raises
    in [fit] (as scikit-learn's estimators do on [X[:, []]]) is outside the
    model, and no statement below says what [fit] does with one. *)
Record training : Type := {
  shape1 : nat;
  fit_on : list nat -> fitted
}.

(** The [step_score] callback: [step_score(estimator, features)]; a score
    is a float. *)
Definition hook : Type := fitted -> list nat -> float64.

(** The arrays and the score list that [_fit] updates in its loop. *)
Record state : Type := {
  support_ : list bool;
  ranking_ : list nat;
  support_added_ : list bool;
  ranking_added_ : list nat;
  scores_ : list float64
}.

(** What [_fit] leaves on [self]; [self_scores_] exists only with a hook. *)
Record fit_attrs : Type := {
  self_estimator_ : fitted;
  self_n_features_ : nat;
  self_support_ : list bool;
  self_ranking_ : list nat;
  self_scores_ : option (list float64)
}.

(** How a call ends: it returns, it raises (with the loop arrays and the
    score list as they are at that moment, [None] before they exist), or the
    fuel given to the [while] loop is used up. *)
Inductive outcome (A : Type) : Type :=
  | Returns (a : A)
  | Raises (e : exn) (locals : option state)
  | OutOfFuel.
Arguments Returns {A} a.
Arguments Raises {A} e locals.
Arguments OutOfFuel {A}.

Definition Qlt_bool (a b : Q) : bool := negb (Qle_bool b a).

(** Lines 159-162: the resolved integer step. [s] is the value of
    [self.step], an int or a float. A step strictly between 0 and 1 is a
    float, and [self.step * n_features] is the float product: [n_features]
    converted to a float and the product rounded. (The last case is not
    reached: an array has fewer than [2^1024] columns, so neither the
    conversion nor the product overflows.) *)
Definition resolve_step (s : Q) (n_features : nat) : Z :=
  if Qlt_bool 0 s && Qlt_bool s 1
  then
    match f64_of_Z (Z.of_nat n_features) with
    | Fin n =>
        match f64_round (s * n) with
        | Fin p => py_int (py_max1 p)
        | _ => 1%Z
        end
    | _ => 1%Z
    end
  else py_int s.

(** Lines 154-157. *)
Definition resolve_target (sel : option Z) (n_features : nat) : Z :=
  match sel with
  | None => Z.of_nat (n_features / 2)
  | Some k => k
  end.

Section Engine.

  (** [np.argsort] with its default arguments. *)
Variable argsort : list float64 -> list nat.

  (** Lines 206-222: the positions of the remaining features, most
      important first. *)
Definition get_ranks (coefs : ndarray) : result (list nat) :=
    match safe_sqr coefs with
    | Ok sq => Ok (argsort (neg_importance sq))
    | Raise ValueError =>
        sq ← safe_sqr (nan_to_num coefs);
        Ok (argsort (neg_importance sq))
    | Raise e => Raise e
    end.

Variable Xy : training.
Variable target : Z.              (* the local n_features_to_select *)
Variable istep : Z.               (* the local step *)
Variable step_score : option hook.

  (** Lines 166-169 and 172. *)
Definition init_state : state :=
    let n := shape1 Xy in
    {| support_ := replicate n true;
       ranking_ := replicate n 1;
       support_added_ := replicate n false;
       ranking_added_ := replicate n 1;
       scores_ := [] |}.

  (** Line 175: [np.sum(support_) > n_features_to_select]. *)
Definition loop_cond (st : state) : bool :=
    (target <? Z.of_nat (np_sum (support_ st)))%Z.

  (** Lines 183-186. *)
Definition score_previous (st : state) (features_added : list nat) : list float64 :=
    match step_score with
    | Some f =>
        if 0 <? np_sum (support_added_ st)
        then scores_ st ++ [f (fit_on Xy features_added) features_added]
        else scores_ st
    | None => scores_ st
    end.

  (** Lines 179-186: the pass up to the fit; only the score list changes. *)
Definition score_step (st : state) : state :=
    let features_added := bool_index (arange (shape1 Xy)) (support_added_ st) in
    {| support_ := support_ st;
       ranking_ := ranking_ st;
       support_added_ := support_added_ st;
       ranking_added_ := ranking_added_ st;
       scores_ := score_previous st features_added |}.

(** Lines 176-233: one pass through the body of the [while] loop. The
    arrays are written only at its end, after everything that can raise. *)
Definition loop_body (st : state) : result state :=
    let features := bool_index (arange (shape1 Xy)) (support_ st) in
    let scores := scores_ (score_step st) in
    let estimator := fit_on Xy features in
    match get_coefs estimator with
    | None => Raise RuntimeError
    | Some coefs =>
        ranks ← get_ranks coefs;
        let threshold := Z.min istep (Z.of_nat (np_sum (support_ st)) - target) in
        picked ← fancy_index features ranks;
        let batch := slice_to threshold picked in
        let support' := assign_at batch false (support_ st) in
        let ranking' := incr_where_not support' (ranking_ st) in
        let added' := assign_at batch true (support_added_ st) in
        let ranking_added' := incr_where_not added' (ranking_added_ st) in
        Ok {| support_ := support';
              ranking_ := ranking';
              support_added_ := added';
              ranking_added_ := ranking_added';
              scores_ := scores |}
    end.

  (** Lines 175-233: the [while] loop, with [fuel] bounding its passes. *)
Fixpoint while_loop (fuel : nat) (st : state) : outcome state :=
    if loop_cond st then
      match fuel with
      | 0 => OutOfFuel
      | S fuel' =>
          match loop_body st with
          | Ok st' => while_loop fuel' st'
          | Raise e => Raises e (Some (score_step st))
          end
      end
    else Returns st.

  (** The arrays after [i] completed passes of the loop, when the loop gets
      that far. *)
Fixpoint after (i : nat) : option state :=
    match i with
    | 0 => Some init_state
    | S i' =>
        match after i' with
        | Some st =>
            if loop_cond st then
              match loop_body st with
              | Ok st' => Some st'
              | Raise _ => None
              end
            else None
        | None => None
        end
    end.

  (** Lines 236-247: the final attributes. *)
Definition finalize (st : state) : fit_attrs :=
    let features_added := bool_index (arange (shape1 Xy)) (support_added_ st) in
    let estimator_ := fit_on Xy features_added in
    {| self_estimator_ := estimator_;
       self_n_features_ := np_sum (support_added_ st);
       self_support_ := support_added_ st;
       self_ranking_ := ranking_added_ st;
       self_scores_ :=
         match step_score with
         | Some f => Some (scores_ st ++ [f estimator_ features_added])
         | None => None
         end |}.

  (** Lines 163-247, once the target and the step are resolved. *)
Definition fit_resolved (fuel : nat) : outcome fit_attrs :=
    if (istep <=? 0)%Z then Raises ValueError None
    else
      match while_loop fuel init_state with
      | Returns st => Returns (finalize st)
      | Raises e locals => Raises e locals
      | OutOfFuel => OutOfFuel
      end.

End Engine.

(** [RFA._fit(X, y, step_score)] *)
Definition RFA__fit (argsort : list float64 -> list nat) (self : RFA)
    (Xy : training) (step_score : option hook) (fuel : nat) : outcome fit_attrs :=
  let n_features := shape1 Xy in
  fit_resolved argsort Xy
    (resolve_target (n_features_to_select self) n_features)
    (resolve_step (step self) n_features)
    step_score fuel.

(** [RFA.fit(X, y)] *)
Definition RFA_fit (argsort : list float64 -> list nat) (self : RFA)
    (Xy : training) (fuel : nat) : outcome fit_attrs :=
  RFA__fit argsort self Xy None fuel.

(** ** The cross-validated selector *)

(** One train/test pair of [cv.split(X, y)], as [_rfa_single_fit] uses it:
    [fit_train features] is [clone(estimator).fit(X_train[:, features],
    y_train)] and [score_test] is the lambda
    [_score(estimator, X_test[:, features], y_test, scorer)]. *)
Record fold : Type := {
  fit_train : list nat -> fitted;
  score_test : hook
}.

(** The splitter returned by [check_cv]. *)
Record splitter : Type := {
  split : list fold;
  get_n_splits : Z
}.

(** Constructor arguments of [RFACV] that [fit] reads. *)
Record RFACV : Type := {
  cv_step : Q;
  cv : splitter
}.

(** What [RFACV.fit] leaves on [self]. *)
Record cv_attrs : Type := {
  cv_support_ : list bool;
  cv_n_features_ : nat;
  cv_ranking_ : list nat;
  cv_estimator_ : fitted;
  grid_scores_ : list float64
}.

(** [np.argmax] on floats: the first position holding the largest value,
    where a nan counts as larger than everything (the scan stops at the first
    nan). *)
Fixpoint argmax_from (best_i : nat) (best : float64) (i : nat) (l : list float64)
    : nat :=
  match l with
  | [] => best_i
  | x :: l' =>
      if f64_le x best then argmax_from best_i best (S i) l'
      else if isnan x then i
      else argmax_from i x (S i) l'
  end.

Definition np_argmax (l : list float64) : nat :=
  match l with
  | [] => 0
  | x :: l' => if isnan x then 0 else argmax_from 0 x 1 l'
  end.

(** [r[j] += a[i + j]] for the blocks of eight entries of [a]. *)
Fixpoint add_blocks (fuel : nat) (r a : list float64) : list float64 :=
  match fuel, a with
  | S fuel', _ :: _ => add_blocks fuel' (zip_with f64_add r (take 8 a)) (drop 8 a)
  | _, _ => r
  end.

(** numpy's pairwise summation of a run of floats that is contiguous in
    memory: plain accumulation below 8 entries, eight accumulators up to
    128 entries, and halves above. [fuel] bounds the halving. *)
Fixpoint pairwise_sum (fuel : nat) (a : list float64) : float64 :=
  let n := length a in
  if n <? 8 then foldl f64_add (Fin 0) a
  else if n <=? 128 then
    let whole := n - n mod 8 in
    let r := add_blocks n (take 8 a) (drop 8 (take whole a)) in
    let at_ i := default (Fin 0) (r !! i) in
    let res :=
      f64_add (f64_add (f64_add (at_ 0) (at_ 1)) (f64_add (at_ 2) (at_ 3)))
              (f64_add (f64_add (at_ 4) (at_ 5)) (f64_add (at_ 6) (at_ 7))) in
    foldl f64_add res (drop whole a)
  else
    match fuel with
    | 0 => Fin 0     (* not reached with [length a <= fuel] *)
    | S fuel' =>
        let n2 := n / 2 - (n / 2) mod 8 in
        f64_add (pairwise_sum fuel' (take n2 a)) (pairwise_sum fuel' (drop n2 a))
    end.

(** Entry [j] of [np.sum(scores, axis=0)] for the trajectories [first ::
    others] of one length, one row per fold. The array is in C order, so
    with two columns or more numpy adds the rows one after the other,
    entry by entry; a single column is contiguous along the summed axis and
    is summed pairwise. *)
Definition sum_at (first : list float64) (others : list (list float64)) (j : nat)
    : float64 :=
  if length first =? 1 then
    let column := first ++ mjoin others in
    pairwise_sum (length column) column
  else
    foldl (fun acc tr => f64_add acc (default NaN (tr !! j)))
      (default NaN (first !! j)) others.

(** [np.sum(scores, axis=0)] for a non-empty list of trajectories of one
    length. Trajectories of different lengths do not form a 2-D array;
    that case is reported as a ValueError. *)
Definition np_sum_axis0 (first : list float64) (others : list (list float64))
    : result (list float64) :=
  if forallb (fun l => length l =? length first) others
  then Ok (sum_at first others <$> seq 0 (length first))
  else Raise ValueError.

Section Selector.

Variable argsort : list float64 -> list nat.

  (** [_rfa_single_fit]: the score trajectory of one fold. *)
Definition rfa_single_fit (rfa : RFA) (n_features : nat) (f : fold)
      (fuel : nat) : outcome (list float64) :=
    let train := {| shape1 := n_features; fit_on := fit_train f |} in
    match RFA__fit argsort rfa train (Some (score_test f)) fuel with
    | Returns a =>
        match self_scores_ a with
        | Some s => Returns s
        | None => Returns []     (* not reached: the hook is given *)
        end
    | Raises e locals => Raises e locals
    | OutOfFuel => OutOfFuel
    end.

  (** Lines 467-469: the folds are evaluated in order; the first one that
      does not return ends the call. *)
Fixpoint all_folds (rfa : RFA) (n_features : nat) (fs : list fold)
      (fuel : nat) : outcome (list (list float64)) :=
    match fs with
    | [] => Returns []
    | f :: fs' =>
        match rfa_single_fit rfa n_features f fuel with
        | Returns s =>
            match all_folds rfa n_features fs' fuel with
            | Returns ss => Returns (s :: ss)
            | Raises e locals => Raises e locals
            | OutOfFuel => OutOfFuel
            end
        | Raises e locals => Raises e locals
        | OutOfFuel => OutOfFuel
        end
    end.

  (** Lines 476-495, from the summed trajectory on. *)
Definition select_and_refit (self : RFACV) (Xy : training) (istep : Z)
      (scores : list float64) (fuel : nat) : outcome cv_attrs :=
    let n_features := shape1 Xy in
    let n_features_to_select :=
      Z.max (Z.of_nat n_features - Z.of_nat (np_argmax scores) * istep) 1 in
    let rfa := {| n_features_to_select := Some n_features_to_select;
                  step := cv_step self |} in
    match RFA_fit argsort rfa Xy fuel with
    | Returns a =>
        Returns
          {| cv_support_ := self_support_ a;
             cv_n_features_ := self_n_features_ a;
             cv_ranking_ := self_ranking_ a;
             cv_estimator_ :=
               fit_on Xy (bool_index (arange n_features) (self_support_ a));
             grid_scores_ :=
               (fun x => f64_div_Z x (get_n_splits (cv self))) <$> reverse scores |}
    | Raises e locals => Raises e locals
    | OutOfFuel => OutOfFuel
    end.

  (** [RFACV.fit(X, y)], with [n_jobs=1] (the folds are evaluated by [list]
    over the generator; with other values joblib collects the same list). *)
Definition RFACV_fit (self : RFACV) (Xy : training) (fuel : nat)
      : outcome cv_attrs :=
    let n_features := shape1 Xy in
    let istep := resolve_step (cv_step self) n_features in
    if (istep <=? 0)%Z then Raises ValueError None
    else
      let rfa := {| n_features_to_select := Some 1%Z; step := cv_step self |} in
      match all_folds rfa n_features (split (cv self)) fuel with
      | Returns [] =>
          (* np.sum([], axis=0) is the scalar 0.0: the engine is run with
             argmax 0, then scores[::-1] fails on the scalar *)
          match select_and_refit self Xy istep [Fin 0] fuel with
          | Returns _ => Raises IndexError None
          | Raises e locals => Raises e locals
          | OutOfFuel => OutOfFuel
          end
      | Returns (s :: ss) =>
          match np_sum_axis0 s ss with
          | Ok scores => select_and_refit self Xy istep scores fuel
          | Raise e => Raises e None
          end
      | Raises e locals => Raises e locals
      | OutOfFuel => OutOfFuel
      end.

End Selector.

(** ** numpy's default argsort

    [np.argsort(a)] uses [kind='quicksort'], which numpy documents as not
    stable: an introsort on the index array, with median-of-three
    partitioning and an insertion sort for ranges of at most 16 entries. (The
    source relies on [np.bool] and [np.int], so it runs on numpy before 1.24,
    where this is the sort used for float64 keys.) The model follows numpy's
    [aquicksort]; a range whose partition depth exceeds [2 * floor(log2 n)]
    is handed to heapsort by numpy and is sorted by insertion here, which
    gives the same order of the keys but may order equal keys differently in
    that case. *)
Module Numpy.

  (** [a < b], with nan sorted after everything else. *)
Definition f64_lt (a b : float64) : bool :=
    match a, b with
    | NaN, _ => false
    | _, NaN => true
    | _, NInf => false
    | NInf, _ => true
    | PInf, _ => false
    | Fin _, PInf => true
    | Fin x, Fin y => Qlt_bool x y
    end.

Section Argsort.

Variable v : list float64.

    (** [v[tosort[p]]] *)
Definition key (tosort : list nat) (p : nat) : float64 :=
      default NaN (tosort !! p ≫= fun i => v !! i).

Definition swap (i j : nat) (tosort : list nat) : list nat :=
      match tosort !! i, tosort !! j with
      | Some a, Some b => <[i := b]> (<[j := a]> tosort)
      | _, _ => tosort
      end.

Definition swap_if_lt (a b : nat) (tosort : list nat) : list nat :=
      if f64_lt (key tosort a) (key tosort b) then swap a b tosort else tosort.

    (** [do ++pi; while (v[*pi] < vp)] *)
Fixpoint scan_up (fuel : nat) (vp : float64) (tosort : list nat) (pi : nat) : nat :=
      match fuel with
      | 0 => S pi
      | S fuel' =>
          if f64_lt (key tosort (S pi)) vp then scan_up fuel' vp tosort (S pi)
          else S pi
      end.

    (** [do --pj; while (vp < v[*pj])] *)
Fixpoint scan_down (fuel : nat) (vp : float64) (tosort : list nat) (pj : nat) : nat :=
      match fuel with
      | 0 => pred pj
      | S fuel' =>
          if f64_lt vp (key tosort (pred pj)) then scan_down fuel' vp tosort (pred pj)
          else pred pj
      end.

Fixpoint partition_loop (fuel : nat) (vp : float64) (tosort : list nat)
        (pi pj : nat) : list nat * nat :=
      let pi := scan_up (length tosort) vp tosort pi in
      let pj := scan_down (length tosort) vp tosort pj in
      if pj <=? pi then (tosort, pi)
      else
        match fuel with
        | 0 => (tosort, pi)
        | S fuel' => partition_loop fuel' vp (swap pi pj tosort) pi pj
        end.

Definition partition (pl pr : nat) (tosort : list nat) : list nat * nat :=
      let pm := pl + (pr - pl) / 2 in
      let t := swap_if_lt pm pl tosort in
      let t := swap_if_lt pr pm t in
      let t := swap_if_lt pm pl t in
      let vp := key t pm in
      let t := swap pm (pr - 1) t in
      let '(t, pi) := partition_loop (length t) vp t pl (pr - 1) in
      (swap pi (pr - 1) t, pi).

    (** The inner [while] of the insertion sort, moving the entry at [pj]
        down past the larger keys (written with exchanges of neighbours). *)
Fixpoint sink (pl : nat) (vp : float64) (tosort : list nat) (pj : nat) : list nat :=
      match pj with
      | 0 => tosort
      | S pk =>
          if (pl <? pj) && f64_lt vp (key tosort pk)
          then sink pl vp (swap pj pk tosort) pk
          else tosort
      end.

Definition insertion_sort (pl pr : nat) (tosort : list nat) : list nat :=
      foldl (fun t pi => sink pl (key t pi) t pi) tosort (seq (S pl) (pr - pl)).

    (** [popped] tells that the range comes from the stack (or is the
        first one), where the depth is checked. *)
Fixpoint introsort (fuel : nat) (popped : bool) (cdepth : Z) (pl pr : nat)
        (tosort : list nat) : list nat :=
      if popped && (cdepth <? 0)%Z then insertion_sort pl pr tosort
      else if 15 <? pr - pl then
        match fuel with
        | 0 => tosort
        | S fuel' =>
            let '(t, pi) := partition pl pr tosort in
            let cdepth := (cdepth - 1)%Z in
            if pi - pl <? pr - pi then
              let t := introsort fuel' false cdepth pl (pi - 1) t in
              introsort fuel' true cdepth (pi + 1) pr t
            else
              let t := introsort fuel' false cdepth (pi + 1) pr t in
              introsort fuel' true cdepth pl (pi - 1) t
        end
      else insertion_sort pl pr tosort.

End Argsort.

Definition argsort (v : list float64) : list nat :=
    let num := length v in
    introsort v num true (2 * Z.log2 (Z.of_nat num)) 0 (num - 1) (seq 0 num).

End Numpy.

(** ** Vocabulary of the statements *)

(** Feature [j] is moved into the added set by pass [i] of the loop
    (counting from 1): it is not in the added mask after [i - 1] passes and
    it is after [i] passes. *)
Definition moved_in (argsort : list float64 -> list nat) (Xy : training)
    (target istep : Z) (step_score : option hook) (i j : nat) : Prop :=
  exists s s',
    0 < i /\
    after argsort Xy target istep step_score (pred i) = Some s /\
    after argsort Xy target istep step_score i = Some s' /\
    support_added_ s !! j = Some false /\
    support_added_ s' !! j = Some true.

(** The run makes exactly [k] passes and leaves the loop with arrays [st]. *)
Definition passes (argsort : list float64 -> list nat) (Xy : training)
    (target istep : Z) (step_score : option hook) (k : nat) (st : state) : Prop :=
  after argsort Xy target istep step_score k = Some st /\
  loop_cond target st = false.

(** The estimator exposes an importance signal with one entry per fitted
    column, whatever columns it is fitted on (the empty selection
    included). *)
Definition exposes_importance (fit : list nat -> fitted) : Prop :=
  forall features, exists coefs,
    get_coefs (fit features) = Some coefs /\
    has_columns (length features) coefs.

(** [np.argsort] returns a permutation of the positions of its argument. *)
Definition argsort_permutes (argsort : list float64 -> list nat) : Prop :=
  forall a, argsort a ≡ₚ seq 0 (length a).

(** The loop arrays all have one entry per feature, and the added mask is
    the complement of the candidate mask. *)
Definition well_formed (n : nat) (st : state) : Prop :=
  length (support_ st) = n /\
  length (ranking_ st) = n /\
  length (ranking_added_ st) = n /\
  support_added_ st = negb <$> support_ st.

(** The four arrays of the loop, without the score list. *)
Definition arrays (st : state) : list bool * list nat * list bool * list nat :=
  (support_ st, ranking_ st, support_added_ st, ranking_added_ st).

(** The pass from [st] to [st'] adds the first [threshold] of the remaining
    features in the order [np.argsort] gives to their negated squared
    importances; nothing else decides between features of equal importance. *)
Definition batch_follows_argsort (argsort : list float64 -> list nat)
    (Xy : training) (target istep : Z) (st st' : state) : Prop :=
  let features := bool_index (arange (shape1 Xy)) (support_ st) in
  exists coefs picked,
    get_coefs (fit_on Xy features) = Some coefs /\
    fancy_index features
      (argsort (neg_importance (arr_map f64_sqr
         (if arr_all isfinite coefs then coefs else arr_map nan_to_num1 coefs))))
      = Ok picked /\
    support_added_ st' =
      assign_at
        (slice_to (Z.min istep (Z.of_nat (np_sum (support_ st)) - target)) picked)
        true (support_added_ st).

(** [ceil(a / b)] on naturals. *)
Definition ceil_div (a b : nat) : nat := (a + b - 1) / b.

(** The number of scores the loop appends from [st] on: one per remaining
    pass, except for the pass that starts with nothing added. *)
Definition scores_appended (target istep : Z) (step_score : option hook)
    (st : state) : nat :=
  let passes_left :=
    ceil_div (np_sum (support_ st) - Z.to_nat target) (Z.to_nat istep) in
  match step_score with
  | None => 0
  | Some _ =>
      if np_sum (support_added_ st) =? 0 then pred passes_left else passes_left
  end.

(** "Every non-finite entry is replaced with 0": the substitution as the
    specification words it. *)
Definition zero_nonfinite (x : float64) : float64 :=
  if isfinite x then x else Fin 0.

(** The score the hook gives to the added set of [st]: the estimator is
    fitted on the added columns and scored on them. *)
Definition score_of (Xy : training) (h : hook) (st : state) : float64 :=
  let features_added := bool_index (arange (shape1 Xy)) (support_added_ st) in
  h (fit_on Xy features_added) features_added.

(** Entry [j] of the trajectory [tr] of fold [f] is the score of the set
    that the fold's run has added after pass [j + 1], a set of
    [min((j + 1) * step, n_features - 1)] features. *)
Definition scores_added_set (argsort : list float64 -> list nat) (n : nat)
    (s : Q) (f : fold) (tr : list float64) (j : nat) : Prop :=
  let train := {| shape1 := n; fit_on := fit_train f |} in
  exists sj,
    after argsort train 1 (resolve_step s n) (Some (score_test f)) (S j) = Some sj /\
    tr !! j = Some (score_of train (score_test f) sj) /\
    np_sum (support_added_ sj) =
      Nat.min (S j * Z.to_nat (resolve_step s n)) (n - 1).

(** [trs] are the trajectories of the folds of [self], in the order of
    the folds, and [agg] is their elementwise float sum, as [np.sum] forms
    it. *)
Definition aggregates (argsort : list float64 -> list nat) (self : RFACV)
    (n : nat) (fuel : nat) (trs : list (list float64)) (agg : list float64) : Prop :=
  Forall2
    (fun f tr =>
       rfa_single_fit argsort
         {| n_features_to_select := Some 1%Z; step := cv_step self |} n f fuel
       = Returns tr)
    (split (cv self)) trs /\
  Forall (fun tr => length tr = length agg) trs /\
  exists first others,
    trs = first :: others /\
    forall j, j < length agg -> agg !! j = Some (sum_at first others j).




(** The exposed grid: the summed trajectory, reversed, each entry divided
    by the number of folds; its entry [length agg - 1 - j] comes from the
    added sets that the folds scored after pass [j + 1]. *)
Definition grid_is_reversed_mean (argsort : list float64 -> list nat)
    (self : RFACV) (Xy : training) (fuel : nat) : Prop :=
  exists trs agg a,
    aggregates argsort self (shape1 Xy) fuel trs agg /\
    RFACV_fit argsort self Xy fuel = Returns a /\
    length (grid_scores_ a) = length agg /\
    length agg =
      ceil_div (shape1 Xy - 1)
        (Z.to_nat (resolve_step (cv_step self) (shape1 Xy))) /\
    (forall j x, agg !! j = Some x ->
       grid_scores_ a !! (length agg - 1 - j) =
       Some (f64_div x (f64_of_Z (Z.of_nat (length (split (cv self))))))) /\
    Forall2
      (fun f tr => forall j, j < length agg ->
         scores_added_set argsort (shape1 Xy) (cv_step self) f tr j)
      (split (cv self)) trs.

(** "Indexed from the full-feature-set score": the mean over the folds of
    the score of an estimator fitted on all the columns, as the
    specification words the first entry of the grid. *)
Definition full_set_mean (self : RFACV) (n : nat) : float64 :=
  f64_div_Z
    (foldl f64_add (Fin 0)
       ((fun f : fold => score_test f (fit_train f (arange n)) (arange n))
          <$> split (cv self)))
    (get_n_splits (cv self)).

(** ** Sample estimators and data *)

(** A linear model whose coefficient for feature [i] is [i]. *)
Definition lin_fit (features : list nat) : fitted :=
  {| coef_ := Array (Arr1 ((fun i => Fin (inject_Z (Z.of_nat i))) <$> features));
     feature_importances_ := Missing |}.

(** A tree-like model: no [coef_], all [feature_importances_] equal. *)
Definition flat_fit (features : list nat) : fitted :=
  {| coef_ := Missing;
     feature_importances_ := Array (Arr1 (replicate (length features) (Fin 1))) |}.

(** A model that exposes neither attribute after fitting. *)
Definition blind_fit (features : list nat) : fitted :=
  {| coef_ := Missing; feature_importances_ := Missing |}.

(** A scorer that returns the number of columns it is shown. *)
Definition count_score : hook :=
  fun _ features => Fin (inject_Z (Z.of_nat (length features))).

(** Three features, coefficients 0, 1, 2. *)
Definition Xy3 : training := {| shape1 := 3; fit_on := lin_fit |}.

(** Ten features, coefficients 0 to 9. *)
Definition Xy10 : training := {| shape1 := 10; fit_on := lin_fit |}.

(** [RFA(estimator, n_features_to_select=1, step=1)] *)
Definition rfa_1_1 : RFA := {| n_features_to_select := Some 1%Z; step := 1 |}.

(** [RFA(estimator, n_features_to_select=2, step=3)] *)
Definition rfa_2_3 : RFA := {| n_features_to_select := Some 2%Z; step := 3 |}.

(** The arrays of [rfa_1_1] on [Xy3] after one and after two passes. *)
Definition Xy3_after1 : state :=
  {| support_ := [true; true; false];
     ranking_ := [1; 1; 2];
     support_added_ := [false; false; true];
     ranking_added_ := [2; 2; 1];
     scores_ := [] |}.

Definition Xy3_after2 : state :=
  {| support_ := [true; false; false];
     ranking_ := [1; 2; 3];
     support_added_ := [false; true; true];
     ranking_added_ := [3; 2; 1];
     scores_ := [] |}.

(** What [rfa_1_1.fit] leaves on [self] for [Xy3]. *)
Definition Xy3_attrs : fit_attrs :=
  {| self_estimator_ := lin_fit [1; 2];
     self_n_features_ := 2;
     self_support_ := [false; true; true];
     self_ranking_ := [3; 2; 1];
     self_scores_ := None |}.

(** [RFA(estimator, n_features_to_select=1, step=0.5)]; on three features
    the step resolves to 1. *)
Definition rfa_1_half : RFA := {| n_features_to_select := Some 1%Z; step := 1 # 2 |}.

(** What [rfa_1_half._fit] with the hook [count_score] leaves for [Xy3]. *)
Definition Xy3_attrs_scored : fit_attrs :=
  {| self_estimator_ := lin_fit [1; 2];
     self_n_features_ := 2;
     self_support_ := [false; true; true];
     self_ranking_ := [3; 2; 1];
     self_scores_ := Some [Fin 1; Fin 2] |}.

(** Eighteen features of equal importance. *)
Definition Xy18_flat : training := {| shape1 := 18; fit_on := flat_fit |}.

(** [RFA(estimator, n_features_to_select=16, step=2)] *)
Definition rfa_16_2 : RFA := {| n_features_to_select := Some 16%Z; step := 2 |}.

(** Two features and an estimator without importance attributes. *)
Definition Xy2_blind : training := {| shape1 := 2; fit_on := blind_fit |}.

(** [RFA(estimator, n_features_to_select=2, step=1)] *)
Definition rfa_2_1 : RFA := {| n_features_to_select := Some 2%Z; step := 1 |}.

(** A fold whose scorer counts the columns. *)
Definition fold_count : fold := {| fit_train := lin_fit; score_test := count_score |}.

(** [RFACV(estimator, step=1, cv=2)] with two such folds. *)
Definition rfacv_2 : RFACV :=
  {| cv_step := 1;
     cv := {| split := [fold_count; fold_count]; get_n_splits := 2 |} |}.

(** ** Further vocabulary and samples *)

(** The keys handed to [np.argsort] for the signal [coefs] (lines 208-219):
    the negated squares, summed over the outputs, of the signal after its
    non-finite entries were replaced; squares and sums are float64 results. *)
Definition sort_keys (coefs : ndarray) : list float64 :=
  neg_importance
    (arr_map f64_sqr (if arr_all isfinite coefs then coefs else nan_to_num coefs)).

(** In numpy's order no key is smaller than a key before it. *)
Fixpoint sorted_keys (ks : list float64) : bool :=
  match ks with
  | [] => true
  | k :: ks' => forallb (fun k' => negb (Numpy.f64_lt k' k)) ks' && sorted_keys ks'
  end.

(** [RFA(estimator, n_features_to_select=-1, step=1)] *)
Definition rfa_neg : RFA := {| n_features_to_select := Some (-1)%Z; step := 1 |}.

(** An estimator that exposes one coefficient more than it has columns. *)
Definition padded_fit (features : list nat) : fitted :=
  {| coef_ := Array (Arr1 (replicate (S (length features)) (Fin 1)));
     feature_importances_ := Missing |}.

Definition Xy3_padded : training := {| shape1 := 3; fit_on := padded_fit |}.

(** A fold whose estimator exposes no importance signal. *)
Definition fold_blind : fold := {| fit_train := blind_fit; score_test := count_score |}.

(** A splitter whose second fold fails. *)
Definition rfacv_failing : RFACV :=
  {| cv_step := 1;
     cv := {| split := [fold_count; fold_blind; fold_count]; get_n_splits := 3 |} |}.

(** [keys[order]]: the keys read in the order of an index array. *)
Definition keys_in_order (keys : list float64) (order : list nat) : list float64 :=
  (fun p => default NaN (keys !! p)) <$> order.

(** [y] is [x] or [-x]. *)
Definition same_up_to_sign (x y : float64) : Prop := y = x \/ y = f64_neg x.

(** [c'] has the shape of [c], and each of its entries is the entry of [c]
    at that place or its negation. *)
Definition sign_flipped (c c' : ndarray) : Prop :=
  match c, c' with
  | Arr1 v, Arr1 v' => Forall2 same_up_to_sign v v'
  | Arr2 rows, Arr2 rows' => Forall2 (Forall2 same_up_to_sign) rows rows'
  | _, _ => False
  end.

(** Whatever columns they are fitted on, the two estimators expose signals
    that differ at most in the signs of their entries (or none at all). *)
Definition signals_differ_in_sign (fit1 fit2 : list nat -> fitted) : Prop :=
  forall features,
    option_Forall2 sign_flipped (get_coefs (fit1 features)) (get_coefs (fit2 features)).

(** The linear model of [lin_fit] with the coefficients of the odd features
    negated: coefficients 0, -1, 2, -3, ... *)
Definition alternating_fit (features : list nat) : fitted :=
  {| coef_ :=
       Array (Arr1 ((fun i => if Nat.even i
                              then Fin (inject_Z (Z.of_nat i))
                              else f64_neg (Fin (inject_Z (Z.of_nat i))))
                      <$> features));
     feature_importances_ := Missing |}.

Definition Xy3_alternating : training := {| shape1 := 3; fit_on := alternating_fit |}.

(** The double nearest to 0.3. *)
Definition double_0_3 : Q := 5404319552844595 # 18014398509481984.

(** The double nearest to 0.29. *)
Definition double_0_29 : Q := 5224175567749775 # 18014398509481984.

(** The doubles [1e-200] and [2e-200]; their squares underflow to zero. *)
Definition double_1em200 : Q := 1723641332219371 # Z.to_pos (2 ^ 715).
Definition double_2em200 : Q := 1723641332219371 # Z.to_pos (2 ^ 714).

(** The doubles nearest to 0.1 and to 0.2. *)
Definition double_0_1 : Q := 3602879701896397 # 36028797018963968.
Definition double_0_2 : Q := 3602879701896397 # 18014398509481984.

(** A scorer that answers [one] when it is shown a single column and
    [more] otherwise. *)
Definition table_score (one more : float64) : hook :=
  fun _ features => if length features =? 1 then one else more.

Definition fold_table (one more : Q) : fold :=
  {| fit_train := lin_fit; score_test := table_score (Fin one) (Fin more) |}.

(** [RFACV(estimator, step=1, cv=3)] with folds that score (0.3, 0.1),
    (0.2, 0.2) and (0.1, 0.3) on one and on two columns. *)
Definition rfacv_floats : RFACV :=
  {| cv_step := 1;
     cv := {| split := [fold_table double_0_3 double_0_1;
                        fold_table double_0_2 double_0_2;
                        fold_table double_0_1 double_0_3];
              get_n_splits := 3 |} |}.

(** * Properties *)

(** ** Masks and index arrays *)

Lemma np_sum_cons (b : bool) (m : list bool) :
  np_sum (b :: m) = (if b then 1 else 0) + np_sum m.
Proof.
  unfold np_sum. rewrite filter_cons.
  destruct b; case_decide; simpl; congruence.
Qed.

Lemma np_sum_le_length (m : list bool) : np_sum m <= length m.
Proof. apply length_filter. Qed.

Lemma np_sum_replicate_true (n : nat) : np_sum (replicate n true) = n.
Proof. induction n as [|n IH]; [done|]. simpl. rewrite np_sum_cons. lia. Qed.

Lemma np_sum_replicate_false (n : nat) : np_sum (replicate n false) = 0.
Proof. induction n as [|n IH]; [done|]. simpl. rewrite np_sum_cons. lia. Qed.

(** A mask and its complement count every position once. *)
Lemma np_sum_negb (m : list bool) : np_sum m + np_sum (negb <$> m) = length m.
Proof.
  induction m as [|b m IH]; [done|].
  rewrite fmap_cons, !np_sum_cons. destruct b; simpl; lia.
Qed.

Lemma np_sum_mono (m m' : list bool) :
  length m = length m' ->
  (forall j, m !! j = Some true -> m' !! j = Some true) ->
  np_sum m <= np_sum m'.
Proof.
  revert m'. induction m as [|b m IH]; intros [|b' m'] Hlen Hsub; try done.
  rewrite !np_sum_cons.
  assert (np_sum m <= np_sum m') as Hle.
  { apply IH; [simpl in Hlen; lia|]. intros j Hj. apply (Hsub (S j)), Hj. }
  destruct b; [|destruct b'; lia].
  specialize (Hsub 0 eq_refl). simplify_eq/=. lia.
Qed.

Lemma np_sum_insert_false (m : list bool) (i : nat) :
  m !! i = Some true -> S (np_sum (<[i := false]> m)) = np_sum m.
Proof.
  revert i. induction m as [|b m IH]; intros [|i] Hi; try done.
  - simplify_eq/=. rewrite !np_sum_cons. lia.
  - simpl. rewrite !np_sum_cons. rewrite <- (IH i Hi). lia.
Qed.

Lemma length_assign_at (idx : list nat) (b : bool) (m : list bool) :
  length (assign_at idx b m) = length m.
Proof.
  induction idx as [|i idx IH]; [done|]. simpl. by rewrite length_insert.
Qed.

(** Reading a mask after [mask[idx] = b]. *)
Lemma lookup_assign_at (idx : list nat) (b : bool) (m : list bool) (j : nat) :
  assign_at idx b m !! j =
  if decide (j ∈ idx) then (fun _ => b) <$> m !! j else m !! j.
Proof.
  induction idx as [|i idx IH].
  - done.
  - simpl assign_at. rewrite list_lookup_insert, length_assign_at, IH.
    destruct (m !! j) as [x|] eqn:Hj.
    + assert (j < length m) by (by eapply lookup_lt_Some).
      repeat case_decide; simpl; try done;
        rewrite ?elem_of_cons in *; try tauto; try lia.
      all: exfalso; intuition (subst; eauto; lia).
    + assert (length m <= j) by (by apply lookup_ge_None).
      repeat case_decide; simpl; try done; lia.
Qed.

Lemma np_sum_assign_false (batch : list nat) (m : list bool) :
  NoDup batch ->
  (forall j, j ∈ batch -> m !! j = Some true) ->
  np_sum (assign_at batch false m) + length batch = np_sum m.
Proof.
  induction batch as [|i batch IH]; intros Hnd Hin; simpl; [lia|].
  apply NoDup_cons in Hnd as [Hni Hnd].
  rewrite <- IH; [|done|intros j Hj; apply Hin; set_solver].
  rewrite <- (np_sum_insert_false (assign_at batch false m) i); [lia|].
  rewrite lookup_assign_at. case_decide; [done|]. apply Hin. set_solver.
Qed.

Lemma bool_index_cons {A} (x : A) (a : list A) (b : bool) (m : list bool) :
  bool_index (x :: a) (b :: m) =
  if b then x :: bool_index a m else bool_index a m.
Proof.
  unfold bool_index. simpl.
  destruct b; [by rewrite filter_cons_True|by rewrite filter_cons_False].
Qed.

Lemma length_bool_index {A} (a : list A) (m : list bool) :
  length a = length m -> length (bool_index a m) = np_sum m.
Proof.
  revert a. induction m as [|b m IH]; intros [|x a] Hlen; try done.
  rewrite bool_index_cons, np_sum_cons.
  destruct b; simpl; rewrite IH; simpl in Hlen; lia.
Qed.

Lemma elem_of_bool_index_seq (m : list bool) (s j : nat) :
  j ∈ bool_index (seq s (length m)) m <-> s <= j /\ m !! (j - s) = Some true.
Proof.
  revert s. induction m as [|b m IH]; intros s; simpl.
  - unfold bool_index. simpl. rewrite elem_of_nil, lookup_nil.
    split; [done|]. by intros [_ ?].
  - rewrite bool_index_cons.
    assert (j ∈ bool_index (seq (S s) (length m)) m <->
            s < j /\ (b :: m) !! (j - s) = Some true) as Htl.
    { rewrite IH. split; intros [H1 H2]; (split; [lia|]).
      - replace (j - s) with (S (j - S s)) by lia. done.
      - replace (j - s) with (S (j - S s)) in H2 by lia. done. }
    destruct b.
    + rewrite elem_of_cons, Htl. split.
      * intros [->|[H1 H2]]; [|split; [lia|done]].
        split; [lia|]. by rewrite Nat.sub_diag.
      * intros [H1 H2]. destruct (decide (j = s)) as [->|]; [by left|].
        right. split; [lia|done].
    + rewrite Htl. split; intros [H1 H2]; [split; [lia|done]|].
      split; [|done]. destruct (decide (j = s)) as [->|]; [|lia].
      by rewrite Nat.sub_diag in H2.
Qed.

(** [np.arange(n)[mask]] lists the positions where the mask is true. *)
Lemma elem_of_where (n : nat) (m : list bool) (j : nat) :
  length m = n -> j ∈ bool_index (arange n) m <-> m !! j = Some true.
Proof.
  intros <-. unfold arange. rewrite elem_of_bool_index_seq, Nat.sub_0_r.
  intuition lia.
Qed.

Lemma NoDup_bool_index_seq (m : list bool) (s : nat) :
  NoDup (bool_index (seq s (length m)) m).
Proof.
  revert s. induction m as [|b m IH]; intros s; simpl.
  - unfold bool_index. simpl. constructor.
  - rewrite bool_index_cons. destruct b; [|apply IH].
    apply NoDup_cons. split; [|apply IH].
    rewrite elem_of_bool_index_seq. lia.
Qed.

Lemma NoDup_where (n : nat) (m : list bool) :
  length m = n -> NoDup (bool_index (arange n) m).
Proof. intros <-. apply NoDup_bool_index_seq. Qed.

Lemma where_replicate_true (n : nat) :
  bool_index (arange n) (replicate n true) = arange n.
Proof.
  unfold arange. generalize O. induction n as [|n IH]; intros s; [done|].
  simpl. rewrite bool_index_cons. by rewrite IH.
Qed.

Lemma lookup_incr_where_not (mask : list bool) (ranking : list nat) (j : nat) :
  incr_where_not mask ranking !! j =
  match mask !! j, ranking !! j with
  | Some b, Some r => Some (if b : bool then r else S r)
  | _, _ => None
  end.
Proof.
  unfold incr_where_not. rewrite lookup_zip_with.
  destruct (mask !! j), (ranking !! j); done.
Qed.

Lemma length_incr_where_not (mask : list bool) (ranking : list nat) :
  length mask = length ranking ->
  length (incr_where_not mask ranking) = length ranking.
Proof. intros H. unfold incr_where_not. rewrite length_zip_with. lia. Qed.

(** [a[idx]] returns, entry by entry, what [idx] points at. *)
Lemma fancy_index_Ok {A} (a : list A) (idx : list nat) (l : list A) :
  fancy_index a idx = Ok l ->
  length l = length idx /\
  forall p i, idx !! p = Some i -> l !! p = a !! i /\ is_Some (a !! i).
Proof.
  unfold fancy_index. destruct (mapM _ idx) as [l'|] eqn:Hm; [|done].
  intros [= ->]. apply mapM_Some in Hm. split.
  - symmetry. by eapply Forall2_length.
  - intros p i Hp. destruct (Forall2_lookup_l _ _ _ _ _ Hm Hp) as (y & Hy & Hai).
    rewrite Hy, Hai. eauto.
Qed.

Lemma fancy_index_in_range {A} (a : list A) (idx : list nat) :
  (forall i, i ∈ idx -> i < length a) -> exists l, fancy_index a idx = Ok l.
Proof.
  intros Hr. unfold fancy_index.
  destruct (mapM_is_Some_2 (fun i => a !! i) idx) as [l ->]; [|eauto].
  apply Forall_forall. intros i Hi. apply lookup_lt_is_Some_2, Hr, Hi.
Qed.

(** ** Ranking the remaining features *)

Lemma arr_all_nan_to_num (c : ndarray) : arr_all isfinite (nan_to_num c) = true.
Proof.
  assert (forall v, forallb isfinite (nan_to_num1 <$> v) = true) as Hv.
  { induction v as [|x v IH]; [done|]. destruct x; apply IH. }
  destruct c as [v|rows]; simpl; [apply Hv|].
  induction rows as [|r rows IH]; [done|].
  apply andb_true_intro. split; [apply Hv|apply IH].
Qed.

Lemma arr_empty_arr_map (f : float64 -> float64) (c : ndarray) :
  arr_empty (arr_map f c) = arr_empty c.
Proof.
  destruct c as [v|rows]; simpl.
  - by destruct v.
  - induction rows as [|r rows IH]; [done|].
    rewrite fmap_cons. cbn [forallb]. rewrite IH. by destruct r.
Qed.

(** An array with a non-finite entry has an entry. *)
Lemma arr_all_false_nonempty (p : float64 -> bool) (c : ndarray) :
  arr_all p c = false -> arr_empty c = false.
Proof.
  destruct c as [v|rows]; simpl.
  - by destruct v.
  - induction rows as [|r rows IH]; [done|].
    cbn [forallb]. destruct r as [|x r]; [apply IH|done].
Qed.

(** An array with a column for each of [n >= 1] features has an entry. *)
Lemma has_columns_nonempty (n : nat) (c : ndarray) :
  has_columns n c -> 0 < n -> arr_empty c = false.
Proof.
  destruct c as [v|rows]; simpl.
  - destruct v; simpl; [lia|done].
  - intros [Hne Hall] Hn. destruct rows as [|r rows]; [done|].
    apply Forall_cons in Hall as [Hr _]. destruct r; simpl in *; [lia|done].
Qed.

(** The array that is squared is the signal itself when it is finite, and
    [np.nan_to_num] of it otherwise; the except branch of lines 209-219
    succeeds unless the signal has no entry at all, which [check_array]
    refuses both times. *)
Lemma get_ranks_eq (argsort : list float64 -> list nat) (c : ndarray) :
  get_ranks argsort c =
  if arr_empty c then Raise ValueError
  else
    Ok (argsort (neg_importance
          (arr_map f64_sqr (if arr_all isfinite c then c else nan_to_num c)))).
Proof.
  unfold get_ranks, safe_sqr. rewrite arr_all_nan_to_num.
  unfold nan_to_num. rewrite arr_empty_arr_map.
  destruct (arr_all isfinite c) eqn:Hfin; simpl.
  - by destruct (arr_empty c).
  - by rewrite (arr_all_false_nonempty _ _ Hfin).
Qed.

Lemma get_ranks_Ok (argsort : list float64 -> list nat) (c : ndarray)
    (ranks : list nat) :
  get_ranks argsort c = Ok ranks ->
  arr_empty c = false /\
  ranks = argsort (neg_importance
            (arr_map f64_sqr (if arr_all isfinite c then c else nan_to_num c))).
Proof.
  rewrite get_ranks_eq. destruct (arr_empty c); [done|]. by intros [= <-].
Qed.

Lemma get_ranks_nonempty (argsort : list float64 -> list nat) (c : ndarray) :
  arr_empty c = false ->
  get_ranks argsort c =
  Ok (argsort (neg_importance
        (arr_map f64_sqr (if arr_all isfinite c then c else nan_to_num c)))).
Proof. intros H. by rewrite get_ranks_eq, H. Qed.

Lemma has_columns_arr_map (f : float64 -> float64) (n : nat) (c : ndarray) :
  has_columns n c -> has_columns n (arr_map f c).
Proof.
  destruct c as [v|rows]; simpl.
  - by rewrite length_fmap.
  - intros [Hne Hall]. split; [by destruct rows|].
    apply Forall_fmap. eapply Forall_impl; [done|].
    intros r Hr. simpl. by rewrite length_fmap.
Qed.

Lemma length_sum_axis0 (n : nat) (rows : list (list float64)) :
  rows <> [] -> Forall (fun r => length r = n) rows ->
  length (sum_axis0 rows) = n.
Proof.
  destruct rows as [|r rows]; [done|]. intros _ Hall.
  apply Forall_cons in Hall as [Hr Hall]. simpl.
  revert r Hr. induction Hall as [|r' rows Hr' _ IH]; intros r Hr; [done|].
  simpl. apply IH. rewrite length_zip_with. lia.
Qed.

Lemma length_neg_importance (n : nat) (c : ndarray) :
  has_columns n c -> length (neg_importance c) = n.
Proof.
  destruct c as [v|rows]; simpl; rewrite length_fmap; [done|].
  intros [Hne Hall]. by apply length_sum_axis0.
Qed.

Lemma get_ranks_permutation (argsort : list float64 -> list nat)
    (n : nat) (c : ndarray) (ranks : list nat) :
  argsort_permutes argsort -> has_columns n c ->
  get_ranks argsort c = Ok ranks -> ranks ≡ₚ seq 0 n.
Proof.
  intros Hperm Hc Hranks. apply get_ranks_Ok in Hranks as [_ ->].
  etrans; [apply Hperm|]. rewrite (length_neg_importance n); [done|].
  apply has_columns_arr_map. destruct (arr_all isfinite c); [done|].
  by apply has_columns_arr_map.
Qed.

(** ** One pass of the loop *)

Lemma slice_to_take {A} (k : Z) (l : list A) : exists m, slice_to k l = take m l.
Proof. unfold slice_to. destruct (0 <=? k)%Z; eauto. Qed.

Lemma assign_at_negb (batch : list nat) (m : list bool) :
  assign_at batch true (negb <$> m) = negb <$> assign_at batch false m.
Proof.
  apply list_eq. intros j.
  rewrite list_lookup_fmap, !lookup_assign_at, list_lookup_fmap.
  case_decide; [|done]. by destruct (m !! j).
Qed.

Section EngineFacts.

Variable argsort : list float64 -> list nat.
Variable Xy : training.
Variable target istep : Z.
Variable step_score : option hook.

Local Abbreviation n := (shape1 Xy).
Local Abbreviation body := (loop_body argsort Xy target istep step_score).
Local Abbreviation after_ := (after argsort Xy target istep step_score).
Local Abbreviation moved := (moved_in argsort Xy target istep step_score).
Local Abbreviation where_ m := (bool_index (arange (shape1 Xy)) m).

  (** What a pass that does not raise has computed. *)
Lemma loop_body_Ok (st st' : state) :
    body st = Ok st' ->
    exists coefs ranks picked batch,
      get_coefs (fit_on Xy (where_ (support_ st))) = Some coefs /\
      get_ranks argsort coefs = Ok ranks /\
      fancy_index (where_ (support_ st)) ranks = Ok picked /\
      batch = slice_to (Z.min istep (Z.of_nat (np_sum (support_ st)) - target)) picked /\
      support_ st' = assign_at batch false (support_ st) /\
      ranking_ st' = incr_where_not (support_ st') (ranking_ st) /\
      support_added_ st' = assign_at batch true (support_added_ st) /\
      ranking_added_ st' = incr_where_not (support_added_ st') (ranking_added_ st) /\
      scores_ st' = score_previous Xy step_score st (where_ (support_added_ st)).
  Proof.
    unfold loop_body.
    destruct (get_coefs _) as [coefs|] eqn:Hc; [|done].
    destruct (get_ranks argsort coefs) as [ranks|] eqn:Hr; [|done]. simpl.
    destruct (fancy_index _ ranks) as [picked|] eqn:Hp; [|done]. simpl.
    intros [= <-]. simpl. by eexists coefs, ranks, picked, _.
  Qed.

Lemma init_well_formed : well_formed n (init_state Xy).
  Proof.
    unfold well_formed, init_state. simpl. rewrite !length_replicate.
    repeat split. by rewrite fmap_replicate.
  Qed.

Lemma loop_body_well_formed (st st' : state) :
    well_formed n st -> body st = Ok st' -> well_formed n st'.
  Proof.
    intros (Hs & Hr & Hra & Hc) Hb.
    apply loop_body_Ok in Hb
      as (coefs & ranks & picked & batch & _ & _ & _ & _ & Hs' & Hr' & Ha & Hra' & _).
    unfold well_formed. rewrite Hra', Hr', Ha, Hs', Hc, assign_at_negb.
    rewrite !length_incr_where_not, !length_assign_at;
      rewrite ?length_fmap, ?length_assign_at; try lia.
    done.
  Qed.

  (** A pass only ever adds to the added mask. *)
Lemma loop_body_added_mono (st st' : state) (j : nat) :
    body st = Ok st' ->
    support_added_ st !! j = Some true -> support_added_ st' !! j = Some true.
  Proof.
    intros Hb Hj.
    apply loop_body_Ok in Hb
      as (coefs & ranks & picked & batch & _ & _ & _ & _ & _ & _ & -> & _).
    rewrite lookup_assign_at, Hj. by case_decide.
  Qed.

  (** The ranks of the added features are frozen; the others go up by one. *)
Lemma loop_body_ranking (st st' : state) (j : nat) :
    body st = Ok st' ->
    ranking_added_ st' !! j =
    match support_added_ st' !! j, ranking_added_ st !! j with
    | Some b, Some r => Some (if b : bool then r else S r)
    | _, _ => None
    end.
  Proof.
    intros Hb.
    apply loop_body_Ok in Hb
      as (coefs & ranks & picked & batch & _ & _ & _ & _ & _ & _ & _ & -> & _).
    apply lookup_incr_where_not.
  Qed.

  (** The features written by a pass are positions of the arrays. *)
Lemma loop_body_batch_in_bounds (st : state) (ranks picked : list nat) (k : Z) (j : nat) :
    length (support_ st) = n ->
    fancy_index (where_ (support_ st)) ranks = Ok picked ->
    j ∈ slice_to k picked -> support_ st !! j = Some true /\ j < n.
  Proof.
    intros Hlen Hp Hj.
    destruct (slice_to_take k picked) as [m Hm]. rewrite Hm in Hj.
    apply subseteq_take, list_elem_of_lookup in Hj as [p Hpj].
    apply fancy_index_Ok in Hp as [Hl Hp].
    destruct (lookup_lt_is_Some_2 ranks p) as [i Hi].
    { rewrite <- Hl. by eapply lookup_lt_Some. }
    destruct (Hp p i Hi) as [Heq _]. rewrite Hpj in Heq.
    assert (j ∈ where_ (support_ st)) as Hin.
    { apply list_elem_of_lookup. eauto. }
    apply elem_of_where in Hin; [|done]. split; [done|].
    rewrite <- Hlen. by eapply lookup_lt_Some.
  Qed.

  (** *** The arrays at the boundaries of the passes *)

Lemma after_S (i : nat) (st' : state) :
    after_ (S i) = Some st' ->
    exists st, after_ i = Some st /\ loop_cond target st = true /\ body st = Ok st'.
  Proof.
    simpl. destruct (after_ i) as [st|]; [|done].
    destruct (loop_cond target st) eqn:Hc; [|done].
    destruct (body st) as [st''|] eqn:Hb; [|done].
    intros [= <-]. by exists st.
  Qed.

Lemma after_le (i k : nat) (st : state) :
    after_ k = Some st -> i <= k -> is_Some (after_ i).
  Proof.
    intros Hk Hle. revert st Hk. induction Hle as [|k Hle IH]; intros st Hk; [eauto|].
    apply after_S in Hk as (st0 & H0 & _). eauto.
  Qed.

Lemma after_well_formed (i : nat) (st : state) :
    after_ i = Some st -> well_formed n st.
  Proof.
    revert st. induction i as [|i IH]; intros st Hi.
    - simpl in Hi. injection Hi as <-. apply init_well_formed.
    - apply after_S in Hi as (st0 & H0 & _ & Hb).
      eapply loop_body_well_formed; eauto.
  Qed.

Lemma after_added_mono (i k : nat) (s s' : state) (j : nat) :
    after_ i = Some s -> after_ k = Some s' -> i <= k ->
    support_added_ s !! j = Some true -> support_added_ s' !! j = Some true.
  Proof.
    intros Hi Hk Hle Hj. revert s' Hk.
    induction Hle as [|k Hle IH]; intros s' Hk; [congruence|].
    apply after_S in Hk as (s0 & H0 & _ & Hb).
    eapply loop_body_added_mono; eauto.
  Qed.

  (** A feature is moved by at most one pass. *)
Lemma moved_in_unique (i i' j : nat) : moved i j -> moved i' j -> i = i'.
  Proof.
    assert (forall a b, moved a j -> moved b j -> a < b -> False) as Hlt.
    { intros a b (_ & sa & _ & _ & Ha & _ & Hta) (sb & _ & _ & Hb & _ & Hfb & _) Hab.
      assert (support_added_ sb !! j = Some true); [|congruence].
      eapply (after_added_mono a (pred b)); eauto. lia. }
    intros Hi Hi'. destruct (Nat.lt_trichotomy i i') as [?|[?|?]]; [|done|];
      exfalso; eauto.
  Qed.

  (** After [i] passes, a feature not yet added has raw rank [i + 1], and an
      added one keeps the number of the pass that moved it. *)
Lemma after_ranking (i : nat) (st : state) (j : nat) :
    after_ i = Some st -> j < n ->
    (support_added_ st !! j = Some false /\ ranking_added_ st !! j = Some (S i)) \/
    (support_added_ st !! j = Some true /\
     exists i0, i0 <= i /\ moved i0 j /\ ranking_added_ st !! j = Some i0).
  Proof.
    intros Hi Hj. revert st Hi. induction i as [|i IH]; intros st Hi.
    - simpl in Hi. injection Hi as <-. left. simpl.
      split; by apply lookup_replicate.
    - pose proof Hi as Hi'.
      apply after_S in Hi as (st0 & H0 & _ & Hb).
      rewrite (loop_body_ranking _ _ j Hb).
      destruct (IH st0 H0) as [[Hf Hr]|[Ht (i0 & Hle & Hm & Hr)]].
      + rewrite Hr.
        pose proof (after_well_formed _ _ Hi') as (Hl & _ & _ & Hc).
        destruct (support_added_ st !! j) as [[|]|] eqn:Hst.
        * right. split; [done|]. exists (S i). split; [lia|]. split; [|done].
          exists st0, st. simpl. repeat split; eauto; lia.
        * by left.
        * apply lookup_ge_None in Hst. rewrite Hc, length_fmap in Hst. lia.
      + right. rewrite (loop_body_added_mono _ _ j Hb Ht), Hr.
        split; [done|]. exists i0. repeat split; auto.
  Qed.

  (** The rank a feature ends with is the number of the pass that moved it. *)
Lemma moved_in_ranking (i k j : nat) (st : state) :
    after_ k = Some st -> moved i j -> i <= k ->
    ranking_added_ st !! j = Some i.
  Proof.
    intros Hk Hm Hle.
    pose proof Hm as (s & s' & Hpos & Hs & Hs' & Hf & Ht).
    assert (j < n) as Hj.
    { pose proof (after_well_formed _ _ Hs') as (Hl & _ & _ & Hc).
      apply lookup_lt_Some in Ht. by rewrite Hc, length_fmap, Hl in Ht. }
    destruct (after_ranking k st j Hk Hj) as [[Hf' _]|[_ (i0 & _ & Hm0 & Hr)]].
    - pose proof (after_added_mono i k s' st j Hs' Hk Hle Ht). congruence.
    - by rewrite (moved_in_unique i i0 j Hm Hm0).
  Qed.

  (** A [while] loop that returns has made some number of passes. *)
Lemma while_loop_passes (fuel i : nat) (st0 st : state) :
    after_ i = Some st0 ->
    while_loop argsort Xy target istep step_score fuel st0 = Returns st ->
    exists k, i <= k /\ passes argsort Xy target istep step_score k st.
  Proof.
    revert i st0. induction fuel as [|fuel IH]; intros i st0 Hi; simpl;
      destruct (loop_cond target st0) eqn:Hc; try done.
    - intros [= <-]. exists i. by split.
    - destruct (body st0) as [st1|] eqn:Hb; [|done]. intros Hw.
      destruct (IH (S i) st1) as (k & Hle & Hk); [|done|].
      + simpl. by rewrite Hi, Hc, Hb.
      + exists k. split; [lia|done].
    - intros [= <-]. exists i. by split.
  Qed.

End EngineFacts.

(** ** Progress of the loop *)

Lemma ceil_div_0 (s : nat) : 0 < s -> ceil_div 0 s = 0.
Proof. intros Hs. unfold ceil_div. apply Nat.div_small. lia. Qed.

Lemma ceil_div_step (d s : nat) :
  0 < s -> 0 < d -> ceil_div d s = S (ceil_div (d - Nat.min s d) s).
Proof.
  intros Hs Hd. unfold ceil_div.
  destruct (Nat.le_gt_cases d s) as [Hle|Hgt].
  - rewrite Nat.min_r by done. rewrite Nat.sub_diag. simpl.
    rewrite (Nat.div_small (s - 1)) by lia.
    replace (d + s - 1) with (1 * s + (d - 1)) by lia.
    rewrite Nat.div_add_l by lia. rewrite Nat.div_small; lia.
  - rewrite Nat.min_l by lia.
    replace (d + s - 1) with (1 * s + (d - s + s - 1)) by lia.
    rewrite Nat.div_add_l by lia. lia.
Qed.

Lemma NoDup_fancy_index (a : list nat) (idx picked : list nat) :
  NoDup a -> NoDup idx -> fancy_index a idx = Ok picked -> NoDup picked.
Proof.
  intros Ha Hidx Hp. apply fancy_index_Ok in Hp as [Hl Hp].
  apply NoDup_alt. intros p q x Hpx Hqx.
  destruct (lookup_lt_is_Some_2 idx p) as [i Hi].
  { rewrite <- Hl. by eapply lookup_lt_Some. }
  destruct (lookup_lt_is_Some_2 idx q) as [i' Hi'].
  { rewrite <- Hl. by eapply lookup_lt_Some. }
  destruct (Hp p i Hi) as [Hpi _]. destruct (Hp q i' Hi') as [Hqi _].
  rewrite Hpx in Hpi. rewrite Hqx in Hqi.
  assert (i = i') as <-.
  { eapply (proj1 (NoDup_alt a)); eauto. }
  eapply (proj1 (NoDup_alt idx)); eauto.
Qed.

Section Progress.

Variable argsort : list float64 -> list nat.
Variable Xy : training.
Variable target istep : Z.
Variable step_score : option hook.

Hypothesis argsort_ok : argsort_permutes argsort.
Hypothesis estimator_ok : exposes_importance (fit_on Xy).
Hypothesis step_pos : (0 < istep)%Z.
Hypothesis target_nonneg : (0 <= target)%Z.

Local Abbreviation n := (shape1 Xy).
Local Abbreviation body := (loop_body argsort Xy target istep step_score).

(** On a valid input a pass does not raise, and it moves exactly
    [min(step, remaining - target)] features out of the candidates. *)
Lemma loop_body_progress (st : state) :
  well_formed n st -> loop_cond target st = true ->
  exists st',
    body st = Ok st' /\
    np_sum (support_ st') +
      Nat.min (Z.to_nat istep) (np_sum (support_ st) - Z.to_nat target)
    = np_sum (support_ st).
Proof using argsort_ok estimator_ok step_pos target_nonneg.
  intros (Hs & Hr & Hra & Hc) Hcond.
  unfold loop_cond in Hcond. apply Z.ltb_lt in Hcond.
  set (features := bool_index (arange n) (support_ st)).
  assert (length features = np_sum (support_ st)) as Hlen.
  { apply length_bool_index. unfold arange. by rewrite length_seq. }
  assert (NoDup features) as Hnd by (by apply NoDup_where).
  destruct (estimator_ok features) as (coefs & Hcoefs & Hcols).
  assert (arr_empty coefs = false) as Hne.
  { apply (has_columns_nonempty _ _ Hcols). lia. }
  destruct (get_ranks argsort coefs) as [ranks|] eqn:Hranks;
    [|by rewrite get_ranks_nonempty in Hranks].
  pose proof (get_ranks_permutation _ _ _ _ argsort_ok Hcols Hranks) as Hperm.
  destruct (fancy_index_in_range features ranks) as [picked Hpicked].
  { intros i Hi. rewrite Hperm in Hi. apply elem_of_seq in Hi. lia. }
  assert (body st = Ok
    {| support_ := assign_at (slice_to (Z.min istep (Z.of_nat (np_sum (support_ st)) - target)) picked) false (support_ st);
       ranking_ := incr_where_not (assign_at (slice_to (Z.min istep (Z.of_nat (np_sum (support_ st)) - target)) picked) false (support_ st)) (ranking_ st);
       support_added_ := assign_at (slice_to (Z.min istep (Z.of_nat (np_sum (support_ st)) - target)) picked) true (support_added_ st);
       ranking_added_ := incr_where_not (assign_at (slice_to (Z.min istep (Z.of_nat (np_sum (support_ st)) - target)) picked) true (support_added_ st)) (ranking_added_ st);
       scores_ := score_previous Xy step_score st (bool_index (arange n) (support_added_ st)) |})
    as Hbody.
  { unfold loop_body. fold features. rewrite Hcoefs, Hranks. simpl.
    by rewrite Hpicked. }
  eexists. split; [exact Hbody|]. simpl.
  set (thr := Z.min istep (Z.of_nat (np_sum (support_ st)) - target)).
  assert (length picked = np_sum (support_ st)) as Hlp.
  { apply fancy_index_Ok in Hpicked as [-> _].
    by rewrite (Permutation_length Hperm), length_seq. }
  assert (NoDup picked) as Hndp.
  { eapply NoDup_fancy_index; [exact Hnd| |exact Hpicked].
    rewrite Hperm. apply NoDup_seq. }
  assert (slice_to thr picked = take (Z.to_nat thr) picked) as Hslice.
  { unfold slice_to. destruct (0 <=? thr)%Z eqn:H0; [done|].
    apply Z.leb_gt in H0. lia. }
  assert (length (slice_to thr picked) =
          Nat.min (Z.to_nat istep) (np_sum (support_ st) - Z.to_nat target))
    as <-.
  { rewrite Hslice, length_take, Hlp. unfold thr. lia. }
  apply np_sum_assign_false.
  - rewrite Hslice. eapply sublist_NoDup; [exact Hndp|apply sublist_take].
  - intros j Hj.
    by destruct (loop_body_batch_in_bounds Xy st ranks picked thr j Hs Hpicked Hj).
Qed.

(** With fuel for every remaining candidate, the loop returns; it leaves
    [target] candidates (or all of them when there were no more than that to
    begin with). *)
Lemma while_loop_returns (fuel : nat) (st : state) :
  well_formed n st ->
  np_sum (support_ st) - Z.to_nat target <= fuel ->
  exists st',
    while_loop argsort Xy target istep step_score fuel st = Returns st' /\
    well_formed n st' /\
    np_sum (support_ st') = Nat.min (np_sum (support_ st)) (Z.to_nat target) /\
    length (scores_ st') =
      length (scores_ st) + scores_appended target istep step_score st.
Proof using argsort_ok estimator_ok step_pos target_nonneg.
  revert st. induction fuel as [|fuel IH]; intros st Hwf Hfuel.
  - exists st. simpl. unfold loop_cond.
    destruct (Z.ltb_spec target (Z.of_nat (np_sum (support_ st)))) as [Hlt|Hge];
      [lia|].
    split; [done|]. split; [done|]. split; [lia|].
    unfold scores_appended.
    replace (np_sum (support_ st) - Z.to_nat target) with 0 by lia.
    rewrite ceil_div_0 by lia. destruct step_score; [|lia].
    destruct (_ =? _); simpl; lia.
  - simpl. destruct (loop_cond target st) eqn:Hcond.
    + destruct (loop_body_progress st Hwf Hcond) as (st1 & Hb & Hcount).
      rewrite Hb.
      pose proof (loop_body_well_formed _ _ _ _ _ _ _ Hwf Hb) as Hwf1.
      unfold loop_cond in Hcond. apply Z.ltb_lt in Hcond.
      destruct (IH st1 Hwf1) as (st' & Hw & Hwf' & Hsum & Hsc); [lia|].
      exists st'. split; [done|]. split; [done|]. split; [lia|].
      rewrite Hsc.
      apply loop_body_Ok in Hb
        as (coefs & ranks & picked & batch & _ & _ & _ & _ & _ & _ & _ & _ & ->).
      unfold scores_appended, score_previous.
      destruct Hwf as (Hl & _ & _ & Hc), Hwf1 as (Hl1 & _ & _ & Hc1).
      pose proof (np_sum_negb (support_ st)) as Hn.
      pose proof (np_sum_negb (support_ st1)) as Hn1.
      rewrite <- Hc in Hn. rewrite <- Hc1 in Hn1.
      pose proof (np_sum_le_length (support_ st)) as Hle.
      rewrite (ceil_div_step (np_sum (support_ st) - Z.to_nat target)) by lia.
      replace (np_sum (support_ st) - Z.to_nat target -
               Nat.min (Z.to_nat istep) (np_sum (support_ st) - Z.to_nat target))
        with (np_sum (support_ st1) - Z.to_nat target) by lia.
      destruct step_score; [|lia].
      destruct (Nat.eqb_spec (np_sum (support_added_ st1)) 0) as [H0|H0]; [lia|].
      destruct (Nat.eqb_spec (np_sum (support_added_ st)) 0) as [H1|H1].
      * destruct (Nat.ltb_spec 0 (np_sum (support_added_ st))); [lia|]. simpl. lia.
      * destruct (Nat.ltb_spec 0 (np_sum (support_added_ st))); [|lia].
        rewrite length_app. simpl. lia.
    + exists st. unfold loop_cond in Hcond. apply Z.ltb_ge in Hcond.
      split; [done|]. split; [done|]. split; [lia|].
      unfold scores_appended.
      replace (np_sum (support_ st) - Z.to_nat target) with 0 by lia.
      rewrite ceil_div_0 by lia. destruct step_score; [|lia].
      destruct (_ =? _); simpl; lia.
Qed.

End Progress.

(** ** numpy's argsort returns a permutation *)

Module NumpyFacts.
Import Numpy.

Section Perm.

Variable v : list float64.

Lemma swap_perm (i j : nat) (t : list nat) : swap i j t ≡ₚ t.
Proof.
  unfold swap. destruct (t !! i) as [a|] eqn:Hi; [|done].
  destruct (t !! j) as [b|] eqn:Hj; [|done].
  by apply Permutation_insert_swap.
Qed.

Lemma swap_if_lt_perm (a b : nat) (t : list nat) : swap_if_lt v a b t ≡ₚ t.
Proof. unfold swap_if_lt. destruct (f64_lt _ _); [apply swap_perm|done]. Qed.

Lemma partition_loop_perm (fuel : nat) (vp : float64) (t : list nat) (pi pj : nat) :
  (partition_loop v fuel vp t pi pj).1 ≡ₚ t.
Proof.
  revert t pi pj. induction fuel as [|fuel IH]; intros t pi pj; simpl.
  - by destruct (_ <=? _).
  - destruct (_ <=? _); [done|]. rewrite IH. apply swap_perm.
Qed.

Lemma partition_perm (pl pr : nat) (t : list nat) : (partition v pl pr t).1 ≡ₚ t.
Proof.
  unfold partition.
  destruct (partition_loop _ _ _ _ _ _) as [t' pi] eqn:Hloop. simpl.
  rewrite swap_perm.
  change t' with (t', pi).1. rewrite <- Hloop, partition_loop_perm.
  by rewrite swap_perm, !swap_if_lt_perm.
Qed.

Lemma sink_perm (pl : nat) (vp : float64) (t : list nat) (pj : nat) :
  sink v pl vp t pj ≡ₚ t.
Proof.
  revert t. induction pj as [|pk IH]; intros t; simpl; [done|].
  destruct (_ && _); [|done]. rewrite IH. apply swap_perm.
Qed.

Lemma insertion_sort_perm (pl pr : nat) (t : list nat) :
  insertion_sort v pl pr t ≡ₚ t.
Proof.
  unfold insertion_sort. generalize (seq (S pl) (pr - pl)). intros ps.
  revert t. induction ps as [|p ps IH]; intros t; simpl; [done|].
  rewrite IH. apply sink_perm.
Qed.

Lemma introsort_perm (fuel : nat) (popped : bool) (cdepth : Z) (pl pr : nat)
    (t : list nat) :
  introsort v fuel popped cdepth pl pr t ≡ₚ t.
Proof.
  revert popped cdepth pl pr t.
  induction fuel as [|fuel IH]; intros popped cdepth pl pr t; simpl.
  - destruct (_ && _); [apply insertion_sort_perm|].
    destruct (_ <? _); [done|apply insertion_sort_perm].
  - destruct (_ && _); [apply insertion_sort_perm|].
    destruct (15 <? _); [|apply insertion_sort_perm].
    destruct (partition v pl pr t) as [t' pi] eqn:Hpart.
    assert (t' ≡ₚ t) as Ht'.
    { change t' with (t', pi).1. rewrite <- Hpart. apply partition_perm. }
    destruct (_ <? _); by rewrite !IH.
Qed.

End Perm.

Lemma argsort_is_permutation : argsort_permutes Numpy.argsort.
Proof. intros a. unfold argsort. apply introsort_perm. Qed.

(** Up to 16 equal keys keep their order; from 17 on the partition step
    moves them: [np.argsort(np.zeros(17))], [np.argsort(np.zeros(18))]. *)
Example argsort_equal_keys_16 :
  Numpy.argsort (replicate 16 (Fin 0)) = seq 0 16.
Proof. vm_compute. reflexivity. Qed.

Example argsort_equal_keys_17 :
  Numpy.argsort (replicate 17 (Fin 0)) =
  [0; 14; 13; 12; 11; 10; 9; 15; 8; 6; 5; 4; 3; 2; 1; 7; 16].
Proof. vm_compute. reflexivity. Qed.

Example argsort_equal_keys_18 :
  Numpy.argsort (replicate 18 (Fin 0)) =
  [0; 15; 14; 13; 12; 11; 10; 9; 8; 7; 6; 5; 4; 3; 2; 1; 16; 17].
Proof. vm_compute. reflexivity. Qed.

Example argsort_sorts_keys :
  Numpy.argsort [Fin 3; NaN; Fin 1; PInf; Fin 2; NInf; Fin 1] = [5; 2; 6; 4; 0; 3; 1].
Proof. vm_compute. reflexivity. Qed.

End NumpyFacts.

(** ** A whole run *)

Section Run.

Variable argsort : list float64 -> list nat.
Variable Xy : training.
Variable target istep : Z.
Variable step_score : option hook.

Local Abbreviation n := (shape1 Xy).

(** A run that returns has left the loop after some number of passes and
    exposes the added mask and its ranking. *)
Lemma fit_resolved_Returns (fuel : nat) (a : fit_attrs) :
  fit_resolved argsort Xy target istep step_score fuel = Returns a ->
  exists k st,
    passes argsort Xy target istep step_score k st /\
    a = finalize Xy step_score st.
Proof.
  unfold fit_resolved. destruct (istep <=? 0)%Z; [done|].
  destruct (while_loop _ _ _ _ _ _ _) as [st| |] eqn:Hw; try done.
  intros [= <-].
  destruct (while_loop_passes _ _ _ _ _ fuel 0 _ st eq_refl Hw) as (k & _ & Hk).
  by exists k, st.
Qed.

(** No pass is made after the one that leaves the loop. *)
Lemma passes_last (k i : nat) (st s : state) :
  passes argsort Xy target istep step_score k st ->
  after argsort Xy target istep step_score i = Some s -> i <= k.
Proof.
  intros [Hk Hc] Hi. destruct (Nat.le_gt_cases i k) as [|Hlt]; [done|].
  destruct (after_le argsort Xy target istep step_score (S k) i s Hi) as [s' Hs'];
    [lia|].
  apply after_S in Hs' as (s0 & H0 & Hc0 & _). congruence.
Qed.

(** On a valid input with fuel for every feature the run returns; it leaves
    [target] candidates and exposes the others. *)
Lemma fit_resolved_valid (fuel : nat) :
  argsort_permutes argsort -> exposes_importance (fit_on Xy) ->
  (0 < istep)%Z -> (0 <= target)%Z -> n <= fuel ->
  exists st,
    fit_resolved argsort Xy target istep step_score fuel
      = Returns (finalize Xy step_score st) /\
    well_formed n st /\
    np_sum (support_added_ st) = n - Z.to_nat target /\
    length (scores_ st) =
      scores_appended target istep step_score (init_state Xy).
Proof.
  intros Hperm Hexp Hstep Htarget Hfuel.
  pose proof (init_well_formed Xy) as Hwf.
  assert (np_sum (support_ (init_state Xy)) = n) as Hinit
    by apply np_sum_replicate_true.
  destruct (while_loop_returns argsort Xy target istep step_score
              Hperm Hexp Hstep Htarget fuel (init_state Xy) Hwf)
    as (st & Hw & Hwf' & Hsum & Hsc); [lia|].
  exists st. unfold fit_resolved.
  destruct (Z.leb_spec istep 0); [lia|]. rewrite Hw.
  split; [done|]. split; [done|]. split; [|by rewrite Hsc].
  destruct Hwf' as (Hl & _ & _ & Hc).
  pose proof (np_sum_negb (support_ st)) as Hn. rewrite <- Hc, Hl in Hn. lia.
Qed.

End Run.

(** The trajectory of a run driven down to one candidate. *)
Lemma trajectory_length (argsort : list float64 -> list nat) (Xy : training)
    (s : Q) (h : hook) (fuel : nat) :
  argsort_permutes argsort -> exposes_importance (fit_on Xy) ->
  (0 < resolve_step s (shape1 Xy))%Z -> shape1 Xy <= fuel ->
  exists a tr,
    RFA__fit argsort {| n_features_to_select := Some 1%Z; step := s |} Xy
      (Some h) fuel = Returns a /\
    self_scores_ a = Some tr /\
    length tr =
      Nat.max 1 (ceil_div (shape1 Xy - 1) (Z.to_nat (resolve_step s (shape1 Xy)))).
Proof.
  intros Hperm Hexp Hstep Hfuel. unfold RFA__fit. simpl.
  destruct (fit_resolved_valid argsort Xy 1 (resolve_step s (shape1 Xy))
              (Some h) fuel Hperm Hexp Hstep) as (st & Hfit & _ & _ & Hsc);
    [lia|done|].
  eexists _, _. split; [exact Hfit|]. split; [done|].
  rewrite length_app, Hsc. unfold scores_appended, init_state. simpl.
  rewrite np_sum_replicate_true, np_sum_replicate_false. simpl.
  change (Z.to_nat 1) with 1. lia.
Qed.

(** ** The sample runs *)

Lemma lin_fit_exposes : exposes_importance lin_fit.
Proof.
  intros features. eexists. split; [reflexivity|]. simpl. by rewrite length_fmap.
Qed.

Lemma flat_fit_exposes : exposes_importance flat_fit.
Proof.
  intros features. eexists. split; [reflexivity|]. simpl. by rewrite length_replicate.
Qed.

Lemma Xy3_run : RFA__fit Numpy.argsort rfa_1_1 Xy3 None 3 = Returns Xy3_attrs.
Proof. vm_compute. reflexivity. Qed.

Lemma Xy3_passes : passes Numpy.argsort Xy3 1 1 None 2 Xy3_after2.
Proof. split; vm_compute; reflexivity. Qed.

Lemma Xy3_moved_2 : moved_in Numpy.argsort Xy3 1 1 None 2 1.
Proof.
  exists Xy3_after1, Xy3_after2.
  split; [lia|]. repeat split; vm_compute; reflexivity.
Qed.

(** The trajectory of a fold on at least two features. *)
Lemma fold_trajectory_length (argsort : list float64 -> list nat)
    (Xy : training) (s : Q) (h : hook) (fuel : nat) :
  argsort_permutes argsort -> exposes_importance (fit_on Xy) ->
  (0 < resolve_step s (shape1 Xy))%Z -> 2 <= shape1 Xy -> shape1 Xy <= fuel ->
  exists tr,
    rfa_single_fit argsort {| n_features_to_select := Some 1%Z; step := s |}
      (shape1 Xy) {| fit_train := fit_on Xy; score_test := h |} fuel
      = Returns tr /\
    length tr = ceil_div (shape1 Xy - 1) (Z.to_nat (resolve_step s (shape1 Xy))).
Proof.
  intros Hperm Hexp Hstep Hn Hfuel.
  destruct (trajectory_length argsort Xy s h fuel Hperm Hexp Hstep Hfuel)
    as (a & tr & Hfit & Htr & Hlen).
  exists tr. split.
  - unfold rfa_single_fit. simpl.
    replace {| shape1 := shape1 Xy; fit_on := fit_on Xy |} with Xy
      by (by destruct Xy).
    by rewrite Hfit, Htr.
  - rewrite Hlen. apply Nat.max_r.
    rewrite (ceil_div_step (shape1 Xy - 1)) by lia. lia.
Qed.

(** * Main results *)

(** ** Number of selected features *)

(** C1. The specification and the docstring expect the exposed mask
    [support_] and [n_features_] to count [target_count] features
    (floor(n_features/2) when unspecified). The code stops when
    [target_count] candidates REMAIN and exposes the added mask: on every
    valid input the run returns with [n_features - target_count] selected
    features. *)
Theorem RFA_selected_count (argsort : list float64 -> list nat) (self : RFA)
    (Xy : training) (step_score : option hook) (fuel : nat) :
  argsort_permutes argsort ->
  exposes_importance (fit_on Xy) ->
  (0 <= resolve_target (n_features_to_select self) (shape1 Xy)
     <= Z.of_nat (shape1 Xy))%Z ->
  (0 < resolve_step (step self) (shape1 Xy))%Z ->
  shape1 Xy <= fuel ->
  exists a,
    RFA__fit argsort self Xy step_score fuel = Returns a /\
    self_n_features_ a =
      shape1 Xy - Z.to_nat (resolve_target (n_features_to_select self) (shape1 Xy)) /\
    np_sum (self_support_ a) =
      shape1 Xy - Z.to_nat (resolve_target (n_features_to_select self) (shape1 Xy)).
Proof.
  intros Hperm Hexp Htarget Hstep Hfuel. unfold RFA__fit.
  destruct (fit_resolved_valid argsort Xy
              (resolve_target (n_features_to_select self) (shape1 Xy))
              (resolve_step (step self) (shape1 Xy)) step_score fuel
              Hperm Hexp Hstep) as (st & Hfit & _ & Hsum & _); [lia|done|].
  exists (finalize Xy step_score st). by rewrite Hfit.
Qed.

(** Ten features, [n_features_to_select=2], [step=3] (scenario B): eight
    features are selected, not two. *)
Lemma RFA_selected_count_witness :
  exists a,
    RFA__fit Numpy.argsort rfa_2_3 Xy10 None 10 = Returns a /\
    self_n_features_ a = 8 /\
    np_sum (self_support_ a) = 8.
Proof.
  apply (RFA_selected_count Numpy.argsort rfa_2_3 Xy10 None 10).
  - apply NumpyFacts.argsort_is_permutation.
  - apply lin_fit_exposes.
  - vm_compute. split; discriminate.
  - reflexivity.
  - simpl. lia.
Defined.

(** With [n_features_to_select=None] on three features the target is 1 and
    two features are selected. *)
Example default_target_selects_two :
  RFA_fit Numpy.argsort {| n_features_to_select := None; step := 1 |} Xy3 3
  = Returns Xy3_attrs.
Proof. vm_compute. reflexivity. Qed.

(** Scenario C: [step=0.3] on ten features resolves to 3; a step that
    truncates to 0 or less is refused. *)
Example scenario_C_step :
  resolve_step (3 # 10) 10 = 3%Z /\ resolve_step (5 # 2) 10 = 2%Z /\
  resolve_step (- (3 # 10)) 10 = 0%Z.
Proof. vm_compute. done. Qed.

(** Scenario B pass by pass: the candidates go 10, 7, 4, 2 and the loop
    stops after the third pass. *)
Example scenario_B_candidates :
  (fun i => option_map (fun st => np_sum (support_ st))
              (after Numpy.argsort Xy10 2 3 None i)) <$> [0; 1; 2; 3; 4]
  = [Some 10; Some 7; Some 4; Some 2; None].
Proof. vm_compute. reflexivity. Qed.

(** ** Length of the score trajectory *)

(** C3. The specification and the docstring of [RFACV] expect a trajectory
    of [ceil((n_features - 1) / step) + 1] scores for a run driven down to
    one candidate. The code records no score in the first pass (nothing is
    added yet, line 183), so with at least two features the trajectory has
    [ceil((n_features - 1) / step)] entries; the run of a fold is such a
    run, so all folds agree on the length. *)
Theorem score_trajectory_length (argsort : list float64 -> list nat)
    (Xy : training) (s : Q) (h : hook) (fuel : nat) :
  argsort_permutes argsort ->
  exposes_importance (fit_on Xy) ->
  (0 < resolve_step s (shape1 Xy))%Z ->
  2 <= shape1 Xy ->
  shape1 Xy <= fuel ->
  exists a tr,
    RFA__fit argsort {| n_features_to_select := Some 1%Z; step := s |} Xy
      (Some h) fuel = Returns a /\
    self_scores_ a = Some tr /\
    rfa_single_fit argsort {| n_features_to_select := Some 1%Z; step := s |}
      (shape1 Xy) {| fit_train := fit_on Xy; score_test := h |} fuel
      = Returns tr /\
    length tr = ceil_div (shape1 Xy - 1) (Z.to_nat (resolve_step s (shape1 Xy))).
Proof.
  intros Hperm Hexp Hstep Hn Hfuel.
  destruct (trajectory_length argsort Xy s h fuel Hperm Hexp Hstep Hfuel)
    as (a & tr & Hfit & Htr & Hlen).
  exists a, tr. split; [done|]. split; [done|]. split.
  - unfold rfa_single_fit. simpl.
    replace {| shape1 := shape1 Xy; fit_on := fit_on Xy |} with Xy
      by (by destruct Xy).
    by rewrite Hfit, Htr.
  - rewrite Hlen. apply Nat.max_r.
    rewrite (ceil_div_step (shape1 Xy - 1)) by lia. lia.
Qed.

(** Ten features, [step=1]: nine scores, not ten. *)
Lemma score_trajectory_length_witness :
  exists a tr,
    RFA__fit Numpy.argsort rfa_1_1 Xy10 (Some count_score) 10 = Returns a /\
    self_scores_ a = Some tr /\
    rfa_single_fit Numpy.argsort rfa_1_1 10
      {| fit_train := lin_fit; score_test := count_score |} 10 = Returns tr /\
    length tr = 9.
Proof.
  apply (score_trajectory_length Numpy.argsort Xy10 1 count_score 10).
  - apply NumpyFacts.argsort_is_permutation.
  - apply lin_fit_exposes.
  - reflexivity.
  - simpl. lia.
  - simpl. lia.
Defined.

(** ** The exposed ranking *)

(** C10. After a run of [k] passes, every feature moved by pass [i]
    (counting from 1) has rank exactly [i], every selected feature was moved
    by such a pass, and every feature never moved has the one rank [k + 1],
    which is larger than the rank of every selected feature. *)
Theorem ranking_is_pass_number (argsort : list float64 -> list nat) (self : RFA)
    (Xy : training) (step_score : option hook) (fuel : nat) (a : fit_attrs) :
  RFA__fit argsort self Xy step_score fuel = Returns a ->
  exists k st,
    passes argsort Xy
      (resolve_target (n_features_to_select self) (shape1 Xy))
      (resolve_step (step self) (shape1 Xy)) step_score k st /\
    self_support_ a = support_added_ st /\
    forall j, j < shape1 Xy ->
      (forall i,
         moved_in argsort Xy
           (resolve_target (n_features_to_select self) (shape1 Xy))
           (resolve_step (step self) (shape1 Xy)) step_score i j ->
         1 <= i <= k /\
         self_support_ a !! j = Some true /\
         self_ranking_ a !! j = Some i) /\
      (self_support_ a !! j = Some true ->
         exists i,
           moved_in argsort Xy
             (resolve_target (n_features_to_select self) (shape1 Xy))
             (resolve_step (step self) (shape1 Xy)) step_score i j) /\
      (self_support_ a !! j = Some false -> self_ranking_ a !! j = Some (S k)) /\
      is_Some (self_support_ a !! j).
Proof.
  unfold RFA__fit. intros Hfit.
  apply fit_resolved_Returns in Hfit as (k & st & Hpass & ->).
  exists k, st. split; [done|]. split; [done|]. simpl.
  intros j Hj. pose proof Hpass as [Hk _].
  split; [|split; [|split]].
  - intros i Hm. pose proof Hm as (s & s' & Hpos & _ & Hs' & _ & Ht).
    assert (i <= k) as Hik by (eapply passes_last; eauto).
    split; [lia|]. split.
    + eapply after_added_mono; [exact Hs'|exact Hk|exact Hik|exact Ht].
    + eapply moved_in_ranking; [exact Hk|exact Hm|exact Hik].
  - intros Ht.
    destruct (after_ranking _ _ _ _ _ k st j Hk Hj)
      as [[Hf _]|[_ (i0 & _ & Hm & _)]]; [congruence|eauto].
  - intros Hf.
    destruct (after_ranking _ _ _ _ _ k st j Hk Hj)
      as [[_ Hr]|[Ht _]]; [done|congruence].
  - destruct (after_ranking _ _ _ _ _ k st j Hk Hj) as [[-> _]|[-> _]]; eauto.
Qed.

Lemma ranking_is_pass_number_witness :
  exists k st,
    passes Numpy.argsort Xy3 1 1 None k st /\
    self_support_ Xy3_attrs = support_added_ st /\
    forall j, j < 3 ->
      (forall i,
         moved_in Numpy.argsort Xy3 1 1 None i j ->
         1 <= i <= k /\
         self_support_ Xy3_attrs !! j = Some true /\
         self_ranking_ Xy3_attrs !! j = Some i) /\
      (self_support_ Xy3_attrs !! j = Some true ->
         exists i, moved_in Numpy.argsort Xy3 1 1 None i j) /\
      (self_support_ Xy3_attrs !! j = Some false ->
         self_ranking_ Xy3_attrs !! j = Some (S k)) /\
      is_Some (self_support_ Xy3_attrs !! j).
Proof.
  apply (ranking_is_pass_number Numpy.argsort rfa_1_1 Xy3 None 3 Xy3_attrs).
  vm_compute. reflexivity.
Defined.

(** C2, as the code has it. The rank of a feature depends only on the pass
    that moved it: features of one batch share their rank, rank 1 belongs to
    the batch added FIRST, and batches added later have larger ranks. *)
Theorem rank_follows_batch_order (argsort : list float64 -> list nat) (self : RFA)
    (Xy : training) (step_score : option hook) (fuel : nat) (a : fit_attrs)
    (i i' j j' : nat) :
  RFA__fit argsort self Xy step_score fuel = Returns a ->
  moved_in argsort Xy
    (resolve_target (n_features_to_select self) (shape1 Xy))
    (resolve_step (step self) (shape1 Xy)) step_score i j ->
  moved_in argsort Xy
    (resolve_target (n_features_to_select self) (shape1 Xy))
    (resolve_step (step self) (shape1 Xy)) step_score i' j' ->
  self_ranking_ a !! j = Some i /\
  self_ranking_ a !! j' = Some i' /\
  (i = i' -> self_ranking_ a !! j = self_ranking_ a !! j') /\
  (i < i' ->
   exists r r', self_ranking_ a !! j = Some r /\
                self_ranking_ a !! j' = Some r' /\ r < r') /\
  (self_ranking_ a !! j = Some 1 <-> i = 1).
Proof.
  unfold RFA__fit. intros Hfit Hm Hm'.
  apply fit_resolved_Returns in Hfit as (k & st & Hpass & ->). simpl.
  pose proof Hpass as [Hk _].
  assert (i <= k) as Hi.
  { destruct Hm as (s & s' & _ & _ & Hs' & _). eapply passes_last; eauto. }
  assert (i' <= k) as Hi'.
  { destruct Hm' as (s & s' & _ & _ & Hs' & _). eapply passes_last; eauto. }
  rewrite (moved_in_ranking _ _ _ _ _ i k j st Hk Hm Hi).
  rewrite (moved_in_ranking _ _ _ _ _ i' k j' st Hk Hm' Hi').
  repeat split; try done.
  - by intros ->.
  - intros Hlt. by exists i, i'.
  - by intros [= ->].
  - by intros ->.
Qed.

Lemma rank_follows_batch_order_witness :
  self_ranking_ Xy3_attrs !! 2 = Some 1 /\
  self_ranking_ Xy3_attrs !! 1 = Some 2 /\
  (1 = 2 -> self_ranking_ Xy3_attrs !! 2 = self_ranking_ Xy3_attrs !! 1) /\
  (1 < 2 ->
   exists r r', self_ranking_ Xy3_attrs !! 2 = Some r /\
                self_ranking_ Xy3_attrs !! 1 = Some r' /\ r < r') /\
  (self_ranking_ Xy3_attrs !! 2 = Some 1 <-> 1 = 1).
Proof.
  apply (rank_follows_batch_order Numpy.argsort rfa_1_1 Xy3 None 3 Xy3_attrs 1 2 2 1).
  - vm_compute. reflexivity.
  - exists (init_state Xy3), Xy3_after1.
    split; [lia|]. repeat split; vm_compute; reflexivity.
  - exists Xy3_after1, Xy3_after2.
    split; [lia|]. repeat split; vm_compute; reflexivity.
Defined.

(** C2 as stated fails: on three features with coefficients 0, 1, 2 the run
    makes two passes; feature 1 is moved by the last one and its rank is 2. *)
Lemma last_batch_rank_counterexample :
  ~ (forall k st j,
       passes Numpy.argsort Xy3 1 1 None k st ->
       moved_in Numpy.argsort Xy3 1 1 None k j ->
       forall a, RFA_fit Numpy.argsort rfa_1_1 Xy3 3 = Returns a ->
       self_ranking_ a !! j = Some 1).
Proof.
  intros H.
  specialize (H 2 Xy3_after2 1 Xy3_passes Xy3_moved_2 Xy3_attrs Xy3_run).
  vm_compute in H. discriminate.
Qed.

(** ** The two masks *)

(** C8. At every boundary between passes the candidate mask and the added
    mask together count every feature once, and the next pass does not
    shrink the added mask. *)
Theorem masks_partition_features (argsort : list float64 -> list nat)
    (Xy : training) (target istep : Z) (step_score : option hook)
    (i : nat) (st : state) :
  after argsort Xy target istep step_score i = Some st ->
  np_sum (support_ st) + np_sum (support_added_ st) = shape1 Xy /\
  forall st',
    after argsort Xy target istep step_score (S i) = Some st' ->
    np_sum (support_added_ st) <= np_sum (support_added_ st').
Proof.
  intros Hi. pose proof (after_well_formed _ _ _ _ _ _ _ Hi) as (Hl & _ & _ & Hc).
  split.
  - rewrite Hc, <- Hl. apply np_sum_negb.
  - intros st' Hi'.
    pose proof (after_well_formed _ _ _ _ _ _ _ Hi') as (Hl' & _ & _ & Hc').
    apply np_sum_mono.
    + by rewrite Hc, Hc', !length_fmap, Hl, Hl'.
    + intros j. eapply after_added_mono; eauto.
Qed.

Lemma masks_partition_features_witness :
  np_sum (support_ Xy3_after1) + np_sum (support_added_ Xy3_after1) = 3 /\
  forall st',
    after Numpy.argsort Xy3 1 1 None 2 = Some st' ->
    np_sum (support_added_ Xy3_after1) <= np_sum (support_added_ st').
Proof.
  apply (masks_partition_features Numpy.argsort Xy3 1 1 None 1 Xy3_after1).
  vm_compute. reflexivity.
Defined.

(** ** Non-finite importances *)

(** A pass raises a ValueError only for a signal without entries. *)
Lemma loop_body_ValueError (argsort : list float64 -> list nat) (Xy : training)
    (target istep : Z) (step_score : option hook) (st : state) :
  loop_body argsort Xy target istep step_score st = Raise ValueError ->
  exists coefs,
    get_coefs (fit_on Xy (bool_index (arange (shape1 Xy)) (support_ st)))
      = Some coefs /\
    arr_empty coefs = true.
Proof.
  unfold loop_body. destruct (get_coefs _) as [coefs|]; [|done].
  rewrite get_ranks_eq. destruct (arr_empty coefs) eqn:He; [by exists coefs|].
  unfold mbind, result_bind, fancy_index. by destruct (mapM _ _).
Qed.

(** C5, as the code has it. A signal with a non-finite entry is passed
    through [np.nan_to_num] before it is ranked: nan becomes 0, +inf and
    -inf become the largest and the smallest finite double, and the ranking
    succeeds; a finite signal with an entry is ranked as it is. A pass of
    the loop raises a ValueError only for a signal without any entry, which
    [check_array] refuses: never for a non-finite value. *)
Theorem nonfinite_importance_recovered (argsort : list float64 -> list nat)
    (c : ndarray) :
  (arr_all isfinite c = false ->
   get_ranks argsort c =
     Ok (argsort (neg_importance (arr_map f64_sqr (arr_map nan_to_num1 c))))) /\
  (arr_all isfinite c = true -> arr_empty c = false ->
   get_ranks argsort c = Ok (argsort (neg_importance (arr_map f64_sqr c)))) /\
  nan_to_num1 NaN = Fin 0 /\
  nan_to_num1 PInf = Fin f64_max /\
  nan_to_num1 NInf = Fin (- f64_max) /\
  (forall q, nan_to_num1 (Fin q) = Fin q) /\
  (forall Xy target istep step_score st,
     loop_body argsort Xy target istep step_score st = Raise ValueError ->
     exists coefs,
       get_coefs (fit_on Xy (bool_index (arange (shape1 Xy)) (support_ st)))
         = Some coefs /\
       arr_empty coefs = true /\
       arr_all isfinite coefs = true).
Proof.
  split; [|split].
  - intros Hfin. rewrite get_ranks_nonempty, Hfin; [done|].
    by eapply arr_all_false_nonempty.
  - intros Hfin Hne. by rewrite get_ranks_nonempty, Hfin.
  - repeat split. intros Xy target istep step_score st Hraise.
    apply loop_body_ValueError in Hraise as (coefs & Hcoefs & Hempty).
    exists coefs. split; [done|]. split; [done|].
    destruct (arr_all isfinite coefs) eqn:Hfin; [done|].
    apply arr_all_false_nonempty in Hfin. congruence.
Qed.

(** C5 as stated fails for an infinite entry: it is not ranked as a 0 (last)
    but as the largest finite double (first). *)
Lemma infinite_importance_counterexample :
  get_ranks Numpy.argsort (Arr1 [Fin 1; PInf]) = Ok [1; 0] /\
  Ok (Numpy.argsort (neg_importance (arr_map f64_sqr
        (arr_map zero_nonfinite (Arr1 [Fin 1; PInf]))))) = Ok [0; 1] /\
  get_ranks Numpy.argsort (Arr1 [Fin 1; PInf]) <>
    Ok (Numpy.argsort (neg_importance (arr_map f64_sqr
          (arr_map zero_nonfinite (Arr1 [Fin 1; PInf]))))).
Proof. vm_compute. repeat split. discriminate. Qed.

(** ** Configuration errors *)

Lemma score_step_init (Xy : training) (step_score : option hook) :
  score_step Xy step_score (init_state Xy) = init_state Xy.
Proof.
  unfold score_step, score_previous, init_state. simpl.
  rewrite np_sum_replicate_false.
  by destruct step_score.
Qed.

Lemma while_loop_Raises_locals (argsort : list float64 -> list nat) (Xy : training)
    (target istep : Z) (step_score : option hook) (fuel : nat) (st : state) (e : exn) :
  while_loop argsort Xy target istep step_score fuel st <> Raises e None.
Proof.
  revert st. induction fuel as [|fuel IH]; intros st; simpl;
    destruct (loop_cond target st); try done.
  destruct (loop_body _ _ _ _ _ st); [apply IH|done].
Qed.

(** C6, as the code has it. A resolved step that is not positive raises the
    ValueError before the arrays exist, and nothing else does. The missing
    importance signal is detected inside the loop, after the first fit: when
    the loop is entered (more features than the target) the RuntimeError is
    raised in the first pass with no feature moved, and when it is not
    entered the run returns without an error. The run of a fold is such a run
    and passes its exception on. *)
Theorem configuration_errors (argsort : list float64 -> list nat) (self : RFA)
    (Xy : training) (step_score : option hook) (fuel : nat) :
  (RFA__fit argsort self Xy step_score fuel = Raises ValueError None <->
   (resolve_step (step self) (shape1 Xy) <= 0)%Z) /\
  (get_coefs (fit_on Xy (arange (shape1 Xy))) = None -> 0 < fuel ->
   RFA__fit argsort self Xy step_score fuel =
     if (resolve_step (step self) (shape1 Xy) <=? 0)%Z
     then Raises ValueError None
     else if (resolve_target (n_features_to_select self) (shape1 Xy)
                <? Z.of_nat (shape1 Xy))%Z
     then Raises RuntimeError (Some (init_state Xy))
     else Returns (finalize Xy step_score (init_state Xy))) /\
  np_sum (support_added_ (init_state Xy)) = 0 /\
  (forall h,
     rfa_single_fit argsort self (shape1 Xy)
       {| fit_train := fit_on Xy; score_test := h |} fuel =
     match RFA__fit argsort self Xy (Some h) fuel with
     | Returns a => Returns (default [] (self_scores_ a))
     | Raises e locals => Raises e locals
     | OutOfFuel => OutOfFuel
     end).
Proof.
  unfold RFA__fit, fit_resolved. repeat split.
  - destruct (Z.leb_spec (resolve_step (step self) (shape1 Xy)) 0); [done|].
    destruct (while_loop _ _ _ _ _ _ _) as [st|e [st|]|] eqn:Hw; try done.
    by apply while_loop_Raises_locals in Hw.
  - intros Hle. by destruct (Z.leb_spec (resolve_step (step self) (shape1 Xy)) 0); [|lia].
  - intros Hnone Hfuel.
    destruct (_ <=? 0)%Z; [done|].
    destruct fuel as [|fuel]; [lia|]. simpl.
    unfold loop_cond at 1. simpl. rewrite np_sum_replicate_true.
    destruct (_ <? _)%Z; [|done].
    unfold loop_body. simpl.
    by rewrite where_replicate_true, Hnone, score_step_init.
  - apply np_sum_replicate_false.
  - intros h. unfold rfa_single_fit, RFA__fit, fit_resolved. simpl.
    replace {| shape1 := shape1 Xy; fit_on := fit_on Xy |} with Xy
      by (by destruct Xy).
    destruct (_ <=? 0)%Z; [done|].
    destruct (while_loop _ _ _ _ _ _ _) as [st| |]; try done.
Qed.

Lemma configuration_errors_witness :
  (RFA__fit Numpy.argsort rfa_1_1 Xy2_blind None 2 = Raises ValueError None <->
   (1 <= 0)%Z) /\
  RFA__fit Numpy.argsort rfa_1_1 Xy2_blind None 2 =
    Raises RuntimeError (Some (init_state Xy2_blind)) /\
  np_sum (support_added_ (init_state Xy2_blind)) = 0.
Proof.
  pose proof (configuration_errors Numpy.argsort rfa_1_1 Xy2_blind None 2)
    as (Hstep & Hsignal & Hnone & _).
  split; [exact Hstep|]. split; [|exact Hnone].
  apply Hsignal; [reflexivity|lia].
Defined.

(** C6 as stated fails: with as many features as the target the loop is not
    entered, and a model that exposes neither signal is fitted without any
    error. *)
Lemma missing_signal_counterexample :
  (forall features, get_coefs (blind_fit features) = None) /\
  RFA_fit Numpy.argsort rfa_2_1 Xy2_blind 2 =
    Returns {| self_estimator_ := blind_fit [];
               self_n_features_ := 0;
               self_support_ := [false; false];
               self_ranking_ := [1; 1];
               self_scores_ := None |}.
Proof. split; [done|]. vm_compute. reflexivity. Qed.

(** ** Determinism and ties *)

Section Agreement.

Variable argsort : list float64 -> list nat.
Variables Xy1 Xy2 : training.
Variable target istep : Z.
Variables h1 h2 : option hook.

Hypothesis same_shape : shape1 Xy1 = shape1 Xy2.
Hypothesis same_fit : forall features, fit_on Xy1 features = fit_on Xy2 features.

(** A pass reads the score list and the hook only to extend the list. *)
Lemma loop_body_agree (st1 st2 : state) :
  arrays st1 = arrays st2 ->
  match loop_body argsort Xy1 target istep h1 st1,
        loop_body argsort Xy2 target istep h2 st2 with
  | Ok st1', Ok st2' => arrays st1' = arrays st2'
  | Raise e1, Raise e2 => e1 = e2
  | _, _ => False
  end.
Proof using same_shape same_fit.
  unfold arrays. intros [= Hs Hr Ha Hra]. unfold loop_body.
  rewrite <- same_shape, <- Hs, <- same_fit.
  destruct (get_coefs _) as [coefs|]; [|done].
  destruct (get_ranks argsort coefs) as [ranks|]; [|done]. simpl.
  destruct (fancy_index _ ranks) as [picked|]; [|done]. simpl.
  unfold arrays. simpl. by rewrite <- Hr, <- Ha, <- Hra.
Qed.

Lemma while_loop_agree (fuel1 fuel2 : nat) (st1 st2 r1 r2 : state) :
  arrays st1 = arrays st2 ->
  while_loop argsort Xy1 target istep h1 fuel1 st1 = Returns r1 ->
  while_loop argsort Xy2 target istep h2 fuel2 st2 = Returns r2 ->
  arrays r1 = arrays r2.
Proof using same_shape same_fit.
  revert fuel2 st1 st2.
  induction fuel1 as [|fuel1 IH]; intros fuel2 st1 st2 Harr; simpl.
  - assert (loop_cond target st2 = loop_cond target st1) as Hc.
    { unfold loop_cond. by injection Harr as -> _ _ _. }
    destruct fuel2; simpl; rewrite Hc; destruct (loop_cond target st1);
      try done; congruence.
  - assert (loop_cond target st2 = loop_cond target st1) as Hc.
    { unfold loop_cond. by injection Harr as -> _ _ _. }
    pose proof (loop_body_agree st1 st2 Harr) as Hb.
    destruct fuel2; simpl; rewrite Hc; destruct (loop_cond target st1);
      try done; try congruence.
    destruct (loop_body argsort Xy1 _ _ _ st1) as [st1'|],
             (loop_body argsort Xy2 _ _ _ st2) as [st2'|]; try done.
    by apply IH.
Qed.

End Agreement.

(** C9, as the code has it. Two runs on the same data and model with the
    same resolved target and step return the same support mask and the same
    ranking, whatever the score hooks and however the step was written;
    nothing in a run is random. In every pass the batch is the head of the
    remaining features in the order [np.argsort] returns, which alone breaks
    the ties. *)
Theorem RFA_runs_agree (argsort : list float64 -> list nat) (self1 self2 : RFA)
    (Xy1 Xy2 : training) (h1 h2 : option hook) (fuel1 fuel2 : nat)
    (a1 a2 : fit_attrs) :
  shape1 Xy1 = shape1 Xy2 ->
  (forall features, fit_on Xy1 features = fit_on Xy2 features) ->
  resolve_target (n_features_to_select self1) (shape1 Xy1) =
    resolve_target (n_features_to_select self2) (shape1 Xy2) ->
  resolve_step (step self1) (shape1 Xy1) = resolve_step (step self2) (shape1 Xy2) ->
  RFA__fit argsort self1 Xy1 h1 fuel1 = Returns a1 ->
  RFA__fit argsort self2 Xy2 h2 fuel2 = Returns a2 ->
  self_support_ a1 = self_support_ a2 /\
  self_ranking_ a1 = self_ranking_ a2 /\
  self_n_features_ a1 = self_n_features_ a2 /\
  forall i st st',
    after argsort Xy1
      (resolve_target (n_features_to_select self1) (shape1 Xy1))
      (resolve_step (step self1) (shape1 Xy1)) h1 i = Some st ->
    after argsort Xy1
      (resolve_target (n_features_to_select self1) (shape1 Xy1))
      (resolve_step (step self1) (shape1 Xy1)) h1 (S i) = Some st' ->
    batch_follows_argsort argsort Xy1
      (resolve_target (n_features_to_select self1) (shape1 Xy1))
      (resolve_step (step self1) (shape1 Xy1)) st st'.
Proof.
  intros Hshape Hfit Htarget Hstep Hrun1 Hrun2.
  assert (self_support_ a1 = self_support_ a2 /\
          self_ranking_ a1 = self_ranking_ a2 /\
          self_n_features_ a1 = self_n_features_ a2) as (Hs & Hr & Hn).
  { revert Hrun1 Hrun2. unfold RFA__fit, fit_resolved.
    rewrite <- Htarget, <- Hstep.
    destruct (_ <=? 0)%Z; [done|].
    destruct (while_loop argsort Xy1 _ _ _ _ _) as [r1| |] eqn:Hw1; try done.
    destruct (while_loop argsort Xy2 _ _ _ _ _) as [r2| |] eqn:Hw2; try done.
    intros [= <-] [= <-]. simpl.
    assert (arrays r1 = arrays r2) as [= _ _ -> ->]; [|done].
    eapply (while_loop_agree argsort Xy1 Xy2); [done|done| |exact Hw1|exact Hw2].
    unfold arrays, init_state. simpl. by rewrite Hshape. }
  split; [done|]. split; [done|]. split; [done|].
  intros i st st' Hi Hi'.
  apply after_S in Hi' as (st0 & H0 & _ & Hb).
  rewrite Hi in H0. injection H0 as <-.
  apply loop_body_Ok in Hb
    as (coefs & ranks & picked & batch & Hc & Hranks & Hp & -> & _ & _ & Ha & _).
  apply get_ranks_Ok in Hranks as [_ ->].
  by exists coefs, picked.
Qed.

Lemma RFA_runs_agree_witness :
  self_support_ Xy3_attrs = self_support_ Xy3_attrs_scored /\
  self_ranking_ Xy3_attrs = self_ranking_ Xy3_attrs_scored /\
  self_n_features_ Xy3_attrs = self_n_features_ Xy3_attrs_scored /\
  forall i st st',
    after Numpy.argsort Xy3 1 1 None i = Some st ->
    after Numpy.argsort Xy3 1 1 None (S i) = Some st' ->
    batch_follows_argsort Numpy.argsort Xy3 1 1 st st'.
Proof.
  apply (RFA_runs_agree Numpy.argsort rfa_1_1 rfa_1_half Xy3 Xy3
           None (Some count_score) 3 5).
  - reflexivity.
  - reflexivity.
  - reflexivity.
  - reflexivity.
  - vm_compute. reflexivity.
  - vm_compute. reflexivity.
Defined.

(** C9 as stated fails in its tie-break: with eighteen features of equal
    importance and a batch of two, the run selects features 0 and 15, so the
    tie between features 1 and 15 is not broken by ascending index. *)
Lemma tie_break_counterexample :
  ~ (forall a c j j' x,
       RFA_fit Numpy.argsort rfa_16_2 Xy18_flat 18 = Returns a ->
       get_coefs (fit_on Xy18_flat (arange 18)) = Some (Arr1 c) ->
       j < j' -> c !! j = Some x -> c !! j' = Some x ->
       self_support_ a !! j' = Some true ->
       self_support_ a !! j = Some true).
Proof.
  intros H.
  destruct (RFA_fit Numpy.argsort rfa_16_2 Xy18_flat 18) as [a| |] eqn:Hrun;
    try (vm_compute in Hrun; discriminate).
  specialize (H a (replicate 18 (Fin 1)) 1 15 (Fin 1) eq_refl eq_refl).
  vm_compute in Hrun. injection Hrun as <-.
  vm_compute in H. specialize (H ltac:(lia) eq_refl eq_refl eq_refl).
  discriminate.
Qed.

(** ** The cross-validated selector *)











Lemma np_sum_axis0_Ok (first : list float64) (others : list (list float64)) :
  Forall (fun tr => length tr = length first) others ->
  np_sum_axis0 first others = Ok (sum_at first others <$> seq 0 (length first)).
Proof.
  intros Hall. unfold np_sum_axis0.
  replace (forallb _ others) with true; [done|].
  symmetry. apply forallb_forall. intros tr Htr.
  apply Nat.eqb_eq. rewrite Forall_forall in Hall. apply Hall.
  by apply list_elem_of_In.
Qed.

(** The summed trajectory holds, entry by entry, the float sum over the
    folds. *)
Lemma lookup_sum_at (first : list float64) (others : list (list float64)) (j : nat) :
  j < length first ->
  (sum_at first others <$> seq 0 (length first)) !! j = Some (sum_at first others j).
Proof. intros Hj. by rewrite list_lookup_fmap, lookup_seq_lt. Qed.

Section SelectorFacts.

Variable argsort : list float64 -> list nat.
Variable self : RFACV.
Variable Xy : training.
Variable fuel : nat.

Hypothesis argsort_ok : argsort_permutes argsort.
Hypothesis estimator_ok : exposes_importance (fit_on Xy).
Hypothesis folds_ok :
  Forall (fun f => exposes_importance (fit_train f)) (split (cv self)).
Hypothesis folds_nonempty : split (cv self) <> [].
Hypothesis step_pos : (0 < resolve_step (cv_step self) (shape1 Xy))%Z.
Hypothesis enough_fuel : shape1 Xy <= fuel.

Local Abbreviation n := (shape1 Xy).
Local Abbreviation istep := (resolve_step (cv_step self) (shape1 Xy)).
Local Abbreviation rfa1 :=
  {| n_features_to_select := Some 1%Z; step := cv_step self |}.

(** Every fold returns a trajectory, all of one length. *)
Lemma all_folds_valid (fs : list fold) :
  Forall (fun f => exposes_importance (fit_train f)) fs ->
  exists trs,
    all_folds argsort rfa1 n fs fuel = Returns trs /\
    Forall2 (fun f tr => rfa_single_fit argsort rfa1 n f fuel = Returns tr) fs trs /\
    Forall (fun tr => length tr = Nat.max 1 (ceil_div (n - 1) (Z.to_nat istep))) trs.
Proof using argsort_ok step_pos enough_fuel.
  induction 1 as [|f fs Hf _ (trs & Hall & Hruns & Hlens)].
  - exists []. by repeat split.
  - destruct (trajectory_length argsort {| shape1 := n; fit_on := fit_train f |}
                (cv_step self) (score_test f) fuel argsort_ok Hf step_pos enough_fuel)
      as (a & tr & Hfit & Htr & Hlen).
    assert (rfa_single_fit argsort rfa1 n f fuel = Returns tr) as Hrun.
    { unfold rfa_single_fit. by rewrite Hfit, Htr. }
    exists (tr :: trs). simpl. rewrite Hrun, Hall.
    split; [done|]. split; by constructor.
Qed.

(** On a valid input the whole cross-validated fit returns, and this is
    what it computes on the way. *)
Lemma RFACV_fit_valid :
  exists tr trs agg st,
    Forall2 (fun f tr => rfa_single_fit argsort rfa1 n f fuel = Returns tr)
      (split (cv self)) (tr :: trs) /\
    agg <> [] /\
    Forall (fun tr => length tr = length agg) (tr :: trs) /\
    (forall j, j < length agg -> agg !! j = Some (sum_at tr trs j)) /\
    RFA__fit argsort
      {| n_features_to_select :=
           Some (Z.max (Z.of_nat n - Z.of_nat (np_argmax agg) * istep) 1);
         step := cv_step self |} Xy None fuel
      = Returns (finalize Xy None st) /\
    RFACV_fit argsort self Xy fuel =
      Returns
        {| cv_support_ := support_added_ st;
           cv_n_features_ := np_sum (support_added_ st);
           cv_ranking_ := ranking_added_ st;
           cv_estimator_ := fit_on Xy (bool_index (arange n) (support_added_ st));
           grid_scores_ :=
             (fun x => f64_div_Z x (get_n_splits (cv self))) <$> reverse agg |}.
Proof using All.
  destruct (all_folds_valid (split (cv self)) folds_ok) as (trs & Hall & Hruns & Hlens).
  destruct trs as [|tr trs].
  { apply Forall2_nil_inv_r in Hruns. done. }
  apply Forall_cons in Hlens as [Hlen Hlens].
  assert (Forall (fun t => length t = length tr) trs) as Hsame.
  { eapply Forall_impl; [exact Hlens|]. simpl. intros; lia. }
  set (agg := sum_at tr trs <$> seq 0 (length tr)).
  assert (length agg = length tr) as Hagg.
  { unfold agg. by rewrite length_fmap, length_seq. }
  set (k := Z.max (Z.of_nat n - Z.of_nat (np_argmax agg) * istep) 1).
  destruct (fit_resolved_valid argsort Xy k istep None fuel
              argsort_ok estimator_ok step_pos) as (st & Hfit & _);
    [unfold k; lia|done|].
  exists tr, trs, agg, st.
  split; [done|]. split; [|split; [|split; [|split]]].
  - intros Hnil. rewrite Hnil in Hagg. simpl in Hagg. lia.
  - constructor; [done|].
    eapply Forall_impl; [exact Hsame|]. simpl. intros; lia.
  - intros j Hj. apply lookup_sum_at. lia.
  - exact Hfit.
  - unfold RFACV_fit. destruct (Z.leb_spec istep 0); [lia|].
    rewrite Hall, (np_sum_axis0_Ok tr trs Hsame).
    unfold select_and_refit, RFA_fit, RFA__fit. simpl.
    fold agg. fold k. by rewrite Hfit.
Qed.

End SelectorFacts.

(** ** What the entries of a trajectory score *)

Section Trajectory.

Variable argsort : list float64 -> list nat.
Variable Xy : training.
Variable target istep : Z.
Variable h : hook.

Hypothesis argsort_ok : argsort_permutes argsort.
Hypothesis estimator_ok : exposes_importance (fit_on Xy).
Hypothesis step_pos : (0 < istep)%Z.
Hypothesis target_nonneg : (0 <= target)%Z.

Local Abbreviation n := (shape1 Xy).
Local Abbreviation after_ := (after argsort Xy target istep (Some h)).

(** After [i] passes, [i] batches of [step] features are added, up to the
    [n_features - target] features the loop adds at most. *)
Lemma after_added_count (i : nat) (st : state) :
  after_ i = Some st ->
  np_sum (support_added_ st) = Nat.min (i * Z.to_nat istep) (n - Z.to_nat target).
Proof using argsort_ok estimator_ok step_pos target_nonneg.
  revert st. induction i as [|i IH]; intros st Hi.
  - simpl in Hi. injection Hi as <-. simpl. apply np_sum_replicate_false.
  - pose proof (after_well_formed _ _ _ _ _ _ _ Hi) as (Hl' & _ & _ & Hc').
    apply after_S in Hi as (st0 & H0 & Hcond & Hb).
    pose proof (after_well_formed _ _ _ _ _ _ _ H0) as Hwf0.
    destruct (loop_body_progress argsort Xy target istep (Some h)
                argsort_ok estimator_ok step_pos target_nonneg st0 Hwf0 Hcond)
      as (st' & Hb' & Hcount).
    rewrite Hb in Hb'. injection Hb' as <-.
    specialize (IH st0 H0). destruct Hwf0 as (Hl & _ & _ & Hc).
    pose proof (np_sum_negb (support_ st0)) as Hn0.
    pose proof (np_sum_negb (support_ st)) as Hn.
    rewrite <- Hc, Hl in Hn0. rewrite <- Hc', Hl' in Hn.
    unfold loop_cond in Hcond. apply Z.ltb_lt in Hcond.
    replace (S i * Z.to_nat istep) with (Z.to_nat istep + i * Z.to_nat istep)
      by (simpl; lia).
    lia.
Qed.

(** After [i] passes the score list holds the scores of the added sets left
    by the passes 1 to [i - 1]. *)
Lemma after_scores (i : nat) (st : state) :
  after_ i = Some st ->
  length (scores_ st) = pred i /\
  forall j sj, S j < i -> after_ (S j) = Some sj ->
    scores_ st !! j = Some (score_of Xy h sj).
Proof using argsort_ok estimator_ok step_pos target_nonneg.
  revert st. induction i as [|i IH]; intros st Hi.
  - simpl in Hi. injection Hi as <-. simpl. split; [done|]. intros; lia.
  - apply after_S in Hi as (st0 & H0 & Hcond & Hb).
    destruct (IH st0 H0) as [Hlen Hsc].
    pose proof (after_added_count i st0 H0) as Hadd.
    pose proof (after_well_formed _ _ _ _ _ _ _ H0) as (Hl & _ & _ & Hc).
    pose proof (np_sum_le_length (support_ st0)) as Hle. rewrite Hl in Hle.
    unfold loop_cond in Hcond. apply Z.ltb_lt in Hcond.
    apply loop_body_Ok in Hb
      as (coefs & ranks & picked & batch & _ & _ & _ & _ & _ & _ & _ & _ & ->).
    unfold score_previous.
    destruct (Nat.ltb_spec 0 (np_sum (support_added_ st0))) as [Hpos|Hzero].
    + assert (0 < i) as Hi0 by (destruct i; [simpl in Hadd; lia|lia]).
      split; [rewrite length_app; simpl; lia|].
      intros j sj Hj Hsj. destruct (decide (S j < i)) as [Hlt|Hge].
      * rewrite lookup_app_l by lia. by apply Hsc.
      * assert (S j = i) as Hji by lia. rewrite Hji, H0 in Hsj.
        injection Hsj as <-.
        rewrite lookup_app_r by lia.
        replace (j - length (scores_ st0)) with 0 by lia. done.
    + assert (i = 0) as -> by (destruct i; [done|simpl in Hadd; lia]).
      split; [simpl; lia|]. intros; lia.
Qed.

(** Entry [j] of the trajectory of a run that made [k] passes is the score
    of the added set left by pass [j + 1]. *)
Lemma trajectory_entries (k : nat) (st : state) (j : nat) (sj : state) :
  passes argsort Xy target istep (Some h) k st ->
  j < k -> after_ (S j) = Some sj ->
  (scores_ st ++ [score_of Xy h st]) !! j = Some (score_of Xy h sj) /\
  np_sum (support_added_ sj) = Nat.min (S j * Z.to_nat istep) (n - Z.to_nat target).
Proof using argsort_ok estimator_ok step_pos target_nonneg.
  intros [Hk _] Hj Hsj. split; [|by apply after_added_count].
  destruct (after_scores k st Hk) as [Hlen Hsc].
  destruct (decide (S j < k)) as [Hlt|Hge].
  - rewrite lookup_app_l by lia. by apply Hsc.
  - assert (S j = k) as Hjk by lia. rewrite Hjk, Hk in Hsj. injection Hsj as <-.
    rewrite lookup_app_r by lia.
    replace (j - length (scores_ st)) with 0 by lia. done.
Qed.

End Trajectory.

(** What the trajectory of a fold scores. *)
Lemma fold_trajectory_entries (argsort : list float64 -> list nat) (n : nat)
    (s : Q) (f : fold) (fuel : nat) (tr : list float64) :
  argsort_permutes argsort -> exposes_importance (fit_train f) ->
  (0 < resolve_step s n)%Z -> 2 <= n ->
  rfa_single_fit argsort {| n_features_to_select := Some 1%Z; step := s |} n f fuel
    = Returns tr ->
  forall j, j < length tr -> scores_added_set argsort n s f tr j.
Proof.
  intros Hperm Hexp Hstep Hn. unfold rfa_single_fit, RFA__fit. simpl.
  destruct (fit_resolved _ _ _ _ _ _) as [a| |] eqn:Hfit; try done.
  apply fit_resolved_Returns in Hfit as (k & st & Hpass & ->). simpl.
  intros [= <-] j Hj.
  set (train := {| shape1 := n; fit_on := fit_train f |}) in *.
  pose proof Hpass as [Hk Hcond].
  destruct (after_scores argsort train 1 (resolve_step s n) (score_test f)
              Hperm Hexp Hstep ltac:(lia) k st Hk) as [Hlen _].
  assert (0 < k) as Hk0.
  { destruct k; [|lia]. simpl in Hk. injection Hk as <-.
    unfold loop_cond, init_state in Hcond. simpl in Hcond.
    rewrite np_sum_replicate_true in Hcond. apply Z.ltb_ge in Hcond. lia. }
  rewrite length_app in Hj. simpl in Hj.
  destruct (after_le argsort train 1 (resolve_step s n) (Some (score_test f))
              (S j) k st Hk) as [sj Hsj]; [lia|].
  exists sj. split; [exact Hsj|].
  destruct (trajectory_entries argsort train 1 (resolve_step s n) (score_test f)
              Hperm Hexp Hstep ltac:(lia) k st j sj Hpass) as [He Hc];
    [lia|done|].
  split; [exact He|]. rewrite Hc. simpl. by change (Z.to_nat 1) with 1.
Qed.

(** ** Selecting the size and fitting again *)



(** ** The score grid *)

(** C7. The specification expects [grid_scores_] to run from the score
    of the full feature set to the score of a single feature, and the
    docstring of [RFACV] gives it [ceil((n_features - 1) / step) + 1]
    entries. The code does divide the elementwise float sum of the
    trajectories of the folds by the number of folds and reverse it, but the
    engine only scores the sets it has added, smallest first, and with the
    target 1 one feature is never added: the grid has
    [ceil((n_features - 1) / step)] entries and runs from the score of
    [n_features - 1] features down to the score of the first batch. The full
    feature set is never scored. *)
Theorem grid_scores_reversed_mean (argsort : list float64 -> list nat)
    (self : RFACV) (Xy : training) (fuel : nat) :
  argsort_permutes argsort ->
  exposes_importance (fit_on Xy) ->
  Forall (fun f => exposes_importance (fit_train f)) (split (cv self)) ->
  split (cv self) <> [] ->
  get_n_splits (cv self) = Z.of_nat (length (split (cv self))) ->
  (0 < resolve_step (cv_step self) (shape1 Xy))%Z ->
  2 <= shape1 Xy ->
  shape1 Xy <= fuel ->
  grid_is_reversed_mean argsort self Xy fuel.
Proof.
  intros Hperm Hexp Hfolds Hne Hsplits Hstep Hn Hfuel.
  destruct (RFACV_fit_valid argsort self Xy fuel Hperm Hexp Hfolds Hne Hstep Hfuel)
    as (tr0 & trs0 & agg & st & Hruns & Hagg & Hlens & Hsum & Hfit & Hcv).
  exists (tr0 :: trs0), agg. eexists. split.
  { split; [done|]. split; [done|]. by exists tr0, trs0. }
  split; [exact Hcv|]. simpl.
  assert (length agg =
          ceil_div (shape1 Xy - 1)
            (Z.to_nat (resolve_step (cv_step self) (shape1 Xy)))) as Hlen.
  { destruct (split (cv self)) as [|f fs] eqn:Hsp; [done|].
    apply Forall2_cons in Hruns as [Hrun _].
    apply Forall_cons in Hlens as [<- _].
    apply Forall_cons in Hfolds as [Hf _]. destruct f as [ft sc].
    destruct (fold_trajectory_length argsort
                {| shape1 := shape1 Xy; fit_on := ft |}
                (cv_step self) sc fuel Hperm Hf Hstep Hn Hfuel)
      as (tr' & Hrun' & Hlen').
    simpl in Hrun'. rewrite Hrun in Hrun'. by injection Hrun' as <-. }
  split; [by rewrite length_fmap, length_reverse|]. split; [exact Hlen|]. split.
  - intros j x Hj. rewrite list_lookup_fmap, reverse_lookup.
    + pose proof (lookup_lt_Some _ _ _ Hj) as Hlt.
      replace (length agg - S (length agg - 1 - j)) with j by lia.
      rewrite Hj. simpl. unfold f64_div_Z. by rewrite Hsplits.
    + apply lookup_lt_Some in Hj. lia.
  - clear Hfit Hcv Hsum Hne Hsplits.
    induction Hruns as [|f tr fs trs' Hrun Hruns IH]; [constructor|].
    apply Forall_cons in Hfolds as [Hf Hfs].
    apply Forall_cons in Hlens as [Htr Htrs].
    constructor; [|by apply IH].
    intros j Hj. eapply fold_trajectory_entries; eauto. lia.
Qed.

Lemma grid_scores_reversed_mean_witness :
  grid_is_reversed_mean Numpy.argsort rfacv_2 Xy3 3.
Proof.
  apply (grid_scores_reversed_mean Numpy.argsort rfacv_2 Xy3 3).
  - apply NumpyFacts.argsort_is_permutation.
  - apply lin_fit_exposes.
  - repeat constructor; apply lin_fit_exposes.
  - discriminate.
  - reflexivity.
  - reflexivity.
  - simpl. lia.
  - simpl. lia.
Defined.

(** The grid at a concrete input: on ten features, with step 1 and a
    scorer that counts the columns it is shown, the grid has 9 entries where
    the docstring gives 10, and its first entry is 9, the score of the nine
    added features, while the score of the full feature set is 10. *)
Lemma grid_first_entry_counterexample :
  exists a q m,
    RFACV_fit Numpy.argsort rfacv_2 Xy10 10 = Returns a /\
    length (grid_scores_ a) = 9 /\
    ceil_div (10 - 1) 1 + 1 = 10 /\
    grid_scores_ a !! 0 = Some (Fin q) /\
    full_set_mean rfacv_2 10 = Fin m /\
    (q == 9)%Q /\ (m == 10)%Q /\
    grid_scores_ a !! 0 <> Some (full_set_mean rfacv_2 10).
Proof.
  eexists _, _, _. split; [vm_compute; reflexivity|].
  split; [reflexivity|]. split; [reflexivity|].
  split; [reflexivity|]. split; [vm_compute; reflexivity|].
  split; [reflexivity|]. split; [reflexivity|].
  vm_compute. discriminate.
Qed.

(** * Further properties of the code *)

(** ** The step *)












(** The steps 0.3 on 10 columns, 0.29 on 100 columns and 0.5 on 3 columns. *)
Example resolve_step_floats :
  resolve_step double_0_3 10 = 3%Z /\
  resolve_step double_0_29 100 = 28%Z /\
  resolve_step (1 # 2) 3 = 1%Z.
Proof. vm_compute. repeat split. Qed.

(** ** Targets outside the usual range *)

Lemma where_replicate_false (n : nat) :
  bool_index (arange n) (replicate n false) = [].
Proof.
  unfold arange. generalize O. induction n as [|n IH]; intros s; [done|].
  simpl. rewrite bool_index_cons. apply IH.
Qed.

(** X3. With [n_features_to_select >= n_features] the loop body never
    runs, whatever the estimator and however short the loop is cut: the
    loop is left at once with its arrays as they were initialised, and the
    final fit of line 239 is asked for the empty column selection
    [X[:, []]]. What [fit] returns, if that last fit lets it return, is the
    empty selection with every rank 1. *)
Theorem target_covers_all_features (argsort : list float64 -> list nat)
    (self : RFA) (Xy : training) (step_score : option hook) (fuel : nat) :
  (0 < resolve_step (step self) (shape1 Xy))%Z ->
  (Z.of_nat (shape1 Xy) <= resolve_target (n_features_to_select self) (shape1 Xy))%Z ->
  while_loop argsort Xy
    (resolve_target (n_features_to_select self) (shape1 Xy))
    (resolve_step (step self) (shape1 Xy)) step_score fuel (init_state Xy)
    = Returns (init_state Xy) /\
  bool_index (arange (shape1 Xy)) (support_added_ (init_state Xy)) = [] /\
  self_estimator_ (finalize Xy step_score (init_state Xy)) = fit_on Xy [] /\
  forall a,
    RFA__fit argsort self Xy step_score fuel = Returns a ->
    self_support_ a = replicate (shape1 Xy) false /\
    self_n_features_ a = 0 /\
    self_ranking_ a = replicate (shape1 Xy) 1.
Proof.
  intros Hstep Htarget.
  assert (while_loop argsort Xy
            (resolve_target (n_features_to_select self) (shape1 Xy))
            (resolve_step (step self) (shape1 Xy)) step_score fuel (init_state Xy)
          = Returns (init_state Xy)) as Hloop.
  { assert (loop_cond (resolve_target (n_features_to_select self) (shape1 Xy))
              (init_state Xy) = false) as Hc.
    { unfold loop_cond, init_state. simpl. rewrite np_sum_replicate_true.
      apply Z.ltb_ge. lia. }
    destruct fuel; simpl; by rewrite Hc. }
  split; [exact Hloop|]. split; [apply where_replicate_false|].
  split; [unfold finalize; simpl; by rewrite where_replicate_false|].
  intros a. unfold RFA__fit, fit_resolved. rewrite Hloop.
  destruct (_ <=? 0)%Z; [done|]. intros [= <-]. simpl.
  by rewrite np_sum_replicate_false.
Qed.

Lemma target_covers_all_features_witness :
  while_loop Numpy.argsort Xy3 3 1 None 0 (init_state Xy3)
    = Returns (init_state Xy3) /\
  bool_index (arange 3) (support_added_ (init_state Xy3)) = [] /\
  self_estimator_ (finalize Xy3 None (init_state Xy3)) = lin_fit [] /\
  forall a,
    RFA__fit Numpy.argsort {| n_features_to_select := Some 3%Z; step := 1 |}
      Xy3 None 0 = Returns a ->
    self_support_ a = [false; false; false] /\
    self_n_features_ a = 0 /\
    self_ranking_ a = [1; 1; 1].
Proof.
  apply (target_covers_all_features Numpy.argsort
           {| n_features_to_select := Some 3%Z; step := 1 |} Xy3 None 0).
  - reflexivity.
  - simpl. lia.
Defined.

Lemma while_loop_negative_target (argsort : list float64 -> list nat) (Xy : training)
    (target istep : Z) (step_score : option hook) (fuel : nat) (st : state) :
  (target < 0)%Z ->
  while_loop argsort Xy target istep step_score fuel st = OutOfFuel \/
  exists e st', while_loop argsort Xy target istep step_score fuel st
                = Raises e (Some st').
Proof.
  intros Hneg. revert st. induction fuel as [|fuel IH]; intros st; simpl.
  - replace (loop_cond target st) with true; [by left|].
    symmetry. apply Z.ltb_lt. lia.
  - replace (loop_cond target st) with true by (symmetry; apply Z.ltb_lt; lia).
    destruct (loop_body _ _ _ _ _ st) as [st'|e]; [apply IH|].
    right. eauto.
Qed.

(** X4. A negative [n_features_to_select] is not refused, and with it the
    loop has no exit: [fit] never returns. It ends only with an exception
    (of the step check or raised inside a pass), and otherwise goes on for as
    long as it is run. *)
Theorem negative_target_never_returns (argsort : list float64 -> list nat)
    (self : RFA) (Xy : training) (step_score : option hook) (fuel : nat) :
  (resolve_target (n_features_to_select self) (shape1 Xy) < 0)%Z ->
  RFA__fit argsort self Xy step_score fuel = OutOfFuel \/
  exists e locals, RFA__fit argsort self Xy step_score fuel = Raises e locals.
Proof.
  intros Hneg. unfold RFA__fit, fit_resolved.
  destruct (_ <=? 0)%Z; [right; eauto|].
  destruct (while_loop_negative_target argsort Xy _
              (resolve_step (step self) (shape1 Xy)) step_score fuel
              (init_state Xy) Hneg) as [->|(e & st' & ->)]; [by left|].
  right. eauto.
Qed.

Lemma negative_target_never_returns_witness :
  RFA__fit Numpy.argsort rfa_neg Xy3 None 50 = OutOfFuel \/
  exists e locals, RFA__fit Numpy.argsort rfa_neg Xy3 None 50 = Raises e locals.
Proof.
  apply (negative_target_never_returns Numpy.argsort rfa_neg Xy3 None 50).
  reflexivity.
Defined.

(** ** The schedule of the passes *)

Lemma ceil_div_unique (d s k : nat) :
  0 < s -> k * s < d -> d <= S k * s -> ceil_div d s = S k.
Proof.
  intros Hs Hlo Hhi. unfold ceil_div. symmetry.
  apply (Nat.div_unique _ _ _ (d + s - 1 - s * S k)); nia.
Qed.

Section Schedule.

Variable argsort : list float64 -> list nat.
Variable Xy : training.
Variable target istep : Z.
Variable step_score : option hook.

Hypothesis argsort_ok : argsort_permutes argsort.
Hypothesis estimator_ok : exposes_importance (fit_on Xy).
Hypothesis step_pos : (0 < istep)%Z.
Hypothesis target_nonneg : (0 <= target)%Z.

Local Abbreviation n := (shape1 Xy).
Local Abbreviation after_ := (after argsort Xy target istep step_score).

(** With or without a score hook, [i] passes add [i] batches of [step]
    features, up to the [n_features - target] features the loop adds at most. *)
Lemma added_after_passes (i : nat) (st : state) :
  after_ i = Some st ->
  np_sum (support_added_ st) = Nat.min (i * Z.to_nat istep) (n - Z.to_nat target).
Proof using argsort_ok estimator_ok step_pos target_nonneg.
  revert st. induction i as [|i IH]; intros st Hi.
  - simpl in Hi. injection Hi as <-. simpl. apply np_sum_replicate_false.
  - pose proof (after_well_formed _ _ _ _ _ _ _ Hi) as (Hl' & _ & _ & Hc').
    apply after_S in Hi as (st0 & H0 & Hcond & Hb).
    pose proof (after_well_formed _ _ _ _ _ _ _ H0) as Hwf0.
    destruct (loop_body_progress argsort Xy target istep step_score
                argsort_ok estimator_ok step_pos target_nonneg st0 Hwf0 Hcond)
      as (st' & Hb' & Hcount).
    rewrite Hb in Hb'. injection Hb' as <-.
    specialize (IH st0 H0). destruct Hwf0 as (Hl & _ & _ & Hc).
    pose proof (np_sum_negb (support_ st0)) as Hn0.
    pose proof (np_sum_negb (support_ st)) as Hn.
    rewrite <- Hc, Hl in Hn0. rewrite <- Hc', Hl' in Hn.
    unfold loop_cond in Hcond. apply Z.ltb_lt in Hcond.
    replace (S i * Z.to_nat istep) with (Z.to_nat istep + i * Z.to_nat istep)
      by (simpl; lia).
    lia.
Qed.

(** The loop is left after [ceil((n_features - target) / step)] passes. *)
Lemma passes_count (k : nat) (st : state) :
  passes argsort Xy target istep step_score k st ->
  k = ceil_div (n - Z.to_nat target) (Z.to_nat istep).
Proof using argsort_ok estimator_ok step_pos target_nonneg.
  intros [Hk Hcond].
  pose proof (added_after_passes k st Hk) as Hadd.
  pose proof (after_well_formed _ _ _ _ _ _ _ Hk) as (Hl & _ & _ & Hc).
  pose proof (np_sum_negb (support_ st)) as Hn. rewrite <- Hc, Hl in Hn.
  unfold loop_cond in Hcond. apply Z.ltb_ge in Hcond.
  destruct k as [|k].
  - simpl in Hadd. replace (n - Z.to_nat target) with 0 by lia.
    rewrite ceil_div_0 by lia. done.
  - apply after_S in Hk as (st0 & H0 & Hcond0 & _).
    pose proof (added_after_passes k st0 H0) as Hadd0.
    pose proof (after_well_formed _ _ _ _ _ _ _ H0) as (Hl0 & _ & _ & Hc0).
    pose proof (np_sum_negb (support_ st0)) as Hn0. rewrite <- Hc0, Hl0 in Hn0.
    unfold loop_cond in Hcond0. apply Z.ltb_lt in Hcond0.
    symmetry. apply ceil_div_unique; lia.
Qed.

End Schedule.

(** X5. The schedule of a run on valid input: [fit] makes exactly
    [ceil((n_features - target) / step)] passes through the loop, and after
    [i] of them [min(i * step, n_features - target)] features are added:
    every batch but the last has [step] features. *)
Theorem pass_schedule (argsort : list float64 -> list nat) (self : RFA)
    (Xy : training) (step_score : option hook) (fuel : nat) :
  argsort_permutes argsort ->
  exposes_importance (fit_on Xy) ->
  (0 < resolve_step (step self) (shape1 Xy))%Z ->
  (0 <= resolve_target (n_features_to_select self) (shape1 Xy))%Z ->
  shape1 Xy <= fuel ->
  exists st,
    RFA__fit argsort self Xy step_score fuel = Returns (finalize Xy step_score st) /\
    passes argsort Xy
      (resolve_target (n_features_to_select self) (shape1 Xy))
      (resolve_step (step self) (shape1 Xy)) step_score
      (ceil_div
         (shape1 Xy - Z.to_nat (resolve_target (n_features_to_select self) (shape1 Xy)))
         (Z.to_nat (resolve_step (step self) (shape1 Xy))))
      st /\
    forall i si,
      after argsort Xy
        (resolve_target (n_features_to_select self) (shape1 Xy))
        (resolve_step (step self) (shape1 Xy)) step_score i = Some si ->
      np_sum (support_added_ si) =
        Nat.min (i * Z.to_nat (resolve_step (step self) (shape1 Xy)))
          (shape1 Xy
           - Z.to_nat (resolve_target (n_features_to_select self) (shape1 Xy))).
Proof.
  intros Hperm Hexp Hstep Htarget Hfuel. unfold RFA__fit.
  destruct (fit_resolved_valid argsort Xy
              (resolve_target (n_features_to_select self) (shape1 Xy))
              (resolve_step (step self) (shape1 Xy)) step_score fuel
              Hperm Hexp Hstep Htarget Hfuel) as (st0 & Hfit & _).
  destruct (fit_resolved_Returns _ _ _ _ _ _ _ Hfit) as (k & st & Hpass & Hfin).
  exists st. rewrite Hfit, Hfin. split; [done|]. split.
  - by rewrite <- (passes_count argsort Xy _ _ step_score Hperm Hexp Hstep Htarget k st).
  - intros i si Hi. by eapply added_after_passes.
Qed.

Lemma pass_schedule_witness :
  exists st,
    RFA__fit Numpy.argsort rfa_2_3 Xy10 None 10 = Returns (finalize Xy10 None st) /\
    passes Numpy.argsort Xy10 2 3 None 3 st /\
    forall i si,
      after Numpy.argsort Xy10 2 3 None i = Some si ->
      np_sum (support_added_ si) = Nat.min (i * 3) 8.
Proof.
  apply (pass_schedule Numpy.argsort rfa_2_3 Xy10 None 10).
  - apply NumpyFacts.argsort_is_permutation.
  - apply lin_fit_exposes.
  - reflexivity.
  - simpl. lia.
  - simpl. lia.
Defined.

(** ** The two rankings *)

(** X6. The loop keeps the ranking of RFE next to the one it exposes, and
    the two mirror each other: after [i] passes they add up to [i + 2] at
    every feature. The exposed ranking is the RFE ranking reversed, as the
    header of the module announces. *)
Theorem rankings_mirror (argsort : list float64 -> list nat) (Xy : training)
    (target istep : Z) (step_score : option hook) (i : nat) (st : state) (j : nat) :
  after argsort Xy target istep step_score i = Some st ->
  j < shape1 Xy ->
  exists r r',
    ranking_ st !! j = Some r /\
    ranking_added_ st !! j = Some r' /\
    r + r' = i + 2.
Proof.
  revert st. induction i as [|i IH]; intros st Hi Hj.
  - simpl in Hi. injection Hi as <-. simpl. exists 1, 1.
    rewrite !lookup_replicate_2 by done. done.
  - pose proof (after_well_formed _ _ _ _ _ _ _ Hi) as (Hl & _ & _ & Hc).
    apply after_S in Hi as (st0 & H0 & _ & Hb).
    destruct (IH st0 H0 Hj) as (r & r' & Hr & Hr' & Hsum).
    apply loop_body_Ok in Hb
      as (coefs & ranks & picked & batch & _ & _ & _ & _ & _ & Hrk & _ & Hrka & _).
    destruct (lookup_lt_is_Some_2 (support_ st) j) as [b Hb]; [lia|].
    rewrite Hrk, Hrka, !lookup_incr_where_not, Hr, Hr', Hc, list_lookup_fmap, Hb.
    simpl. destruct b; eexists _, _; (split; [done|]); (split; [done|]); simpl; lia.
Qed.

Lemma rankings_mirror_witness :
  exists r r',
    ranking_ Xy3_after2 !! 1 = Some r /\
    ranking_added_ Xy3_after2 !! 1 = Some r' /\
    r + r' = 2 + 2.
Proof.
  apply (rankings_mirror Numpy.argsort Xy3 1 1 None 2 Xy3_after2 1).
  - reflexivity.
  - simpl. lia.
Defined.

(** ** What every returning run leaves *)

(** X7. Whatever the estimator and the sort do, a call of [fit] that
    returns leaves a mask and a ranking with one entry per feature,
    [n_features_] is the number of [True] entries of the mask, no more than
    [n_features_to_select] features are left unselected, the step was
    positive, and [estimator_] is fitted on exactly the columns of the mask. *)
Theorem returned_attributes (argsort : list float64 -> list nat) (self : RFA)
    (Xy : training) (step_score : option hook) (fuel : nat) (a : fit_attrs) :
  RFA__fit argsort self Xy step_score fuel = Returns a ->
  length (self_support_ a) = shape1 Xy /\
  length (self_ranking_ a) = shape1 Xy /\
  self_n_features_ a = np_sum (self_support_ a) /\
  (Z.of_nat (shape1 Xy - self_n_features_ a)
     <= resolve_target (n_features_to_select self) (shape1 Xy))%Z /\
  (0 < resolve_step (step self) (shape1 Xy))%Z /\
  self_estimator_ a = fit_on Xy (bool_index (arange (shape1 Xy)) (self_support_ a)).
Proof.
  intros Hfit. unfold RFA__fit in Hfit.
  assert (0 < resolve_step (step self) (shape1 Xy))%Z as Hstep.
  { unfold fit_resolved in Hfit.
    destruct (Z.leb_spec (resolve_step (step self) (shape1 Xy)) 0); [done|lia]. }
  apply fit_resolved_Returns in Hfit as (k & st & [Hk Hcond] & ->). simpl.
  pose proof (after_well_formed _ _ _ _ _ _ _ Hk) as (Hl & _ & Hlr & Hc).
  pose proof (np_sum_negb (support_ st)) as Hn. rewrite <- Hc, Hl in Hn.
  unfold loop_cond in Hcond. apply Z.ltb_ge in Hcond.
  split; [by rewrite Hc, length_fmap|]. split; [done|]. split; [done|].
  split; [lia|]. done.
Qed.

Lemma returned_attributes_witness :
  length (self_support_ Xy3_attrs) = 3 /\
  length (self_ranking_ Xy3_attrs) = 3 /\
  self_n_features_ Xy3_attrs = np_sum (self_support_ Xy3_attrs) /\
  (Z.of_nat (3 - self_n_features_ Xy3_attrs) <= 1)%Z /\
  (0 < 1)%Z /\
  self_estimator_ Xy3_attrs = lin_fit (bool_index (arange 3) (self_support_ Xy3_attrs)).
Proof.
  apply (returned_attributes Numpy.argsort rfa_1_1 Xy3 None 3 Xy3_attrs).
  vm_compute. reflexivity.
Defined.

(** ** The scores of a run with a hook *)

(** X8. With a score hook and any target, a run of [k] passes on valid
    input leaves [max(1, k)] scores: entry [j] (for [j < k]) is the score of
    the set added by the passes 1 to [j + 1], and the last entry is the score
    of the final selection; with no pass at all the one entry scores the
    empty selection. *)
Theorem trajectory_scores_added_sets (argsort : list float64 -> list nat)
    (self : RFA) (Xy : training) (h : hook) (fuel : nat) :
  argsort_permutes argsort ->
  exposes_importance (fit_on Xy) ->
  (0 < resolve_step (step self) (shape1 Xy))%Z ->
  (0 <= resolve_target (n_features_to_select self) (shape1 Xy))%Z ->
  shape1 Xy <= fuel ->
  exists a tr k st,
    RFA__fit argsort self Xy (Some h) fuel = Returns a /\
    self_scores_ a = Some tr /\
    passes argsort Xy
      (resolve_target (n_features_to_select self) (shape1 Xy))
      (resolve_step (step self) (shape1 Xy)) (Some h) k st /\
    self_support_ a = support_added_ st /\
    length tr = Nat.max 1 k /\
    last tr = Some (score_of Xy h st) /\
    forall j sj,
      j < k ->
      after argsort Xy
        (resolve_target (n_features_to_select self) (shape1 Xy))
        (resolve_step (step self) (shape1 Xy)) (Some h) (S j) = Some sj ->
      tr !! j = Some (score_of Xy h sj).
Proof.
  intros Hperm Hexp Hstep Htarget Hfuel. unfold RFA__fit.
  destruct (fit_resolved_valid argsort Xy
              (resolve_target (n_features_to_select self) (shape1 Xy))
              (resolve_step (step self) (shape1 Xy)) (Some h) fuel
              Hperm Hexp Hstep Htarget Hfuel) as (st0 & Hfit & _).
  destruct (fit_resolved_Returns _ _ _ _ _ _ _ Hfit) as (k & st & Hpass & Hfin).
  rewrite Hfit, Hfin.
  exists (finalize Xy (Some h) st), (scores_ st ++ [score_of Xy h st]), k, st.
  pose proof Hpass as [Hk _].
  destruct (after_scores argsort Xy _ _ h Hperm Hexp Hstep Htarget k st Hk)
    as [Hlen _].
  split; [done|]. split; [done|]. split; [done|]. split; [done|].
  split; [rewrite length_app; simpl; lia|]. split; [by rewrite last_snoc|].
  intros j sj Hj Hsj.
  by destruct (trajectory_entries argsort Xy _ _ h Hperm Hexp Hstep Htarget
                 k st j sj Hpass Hj Hsj).
Qed.

Lemma trajectory_scores_added_sets_witness :
  exists a tr k st,
    RFA__fit Numpy.argsort rfa_1_half Xy3 (Some count_score) 3 = Returns a /\
    self_scores_ a = Some tr /\
    passes Numpy.argsort Xy3 1 1 (Some count_score) k st /\
    self_support_ a = support_added_ st /\
    length tr = Nat.max 1 k /\
    last tr = Some (score_of Xy3 count_score st) /\
    forall j sj,
      j < k ->
      after Numpy.argsort Xy3 1 1 (Some count_score) (S j) = Some sj ->
      tr !! j = Some (score_of Xy3 count_score sj).
Proof.
  apply (trajectory_scores_added_sets Numpy.argsort rfa_1_half Xy3 count_score 3).
  - apply NumpyFacts.argsort_is_permutation.
  - apply lin_fit_exposes.
  - reflexivity.
  - simpl. lia.
  - simpl. lia.
Defined.

(** ** An importance array that is too long *)

(** X9. When the first fit exposes more importances than it was given
    columns, [features[ranks]] reads past the end of the candidates: the
    first pass raises an IndexError, with nothing added yet. *)
Theorem surplus_importances_raise (argsort : list float64 -> list nat) (self : RFA)
    (Xy : training) (step_score : option hook) (fuel : nat)
    (coefs : ndarray) (m : nat) :
  argsort_permutes argsort ->
  (0 < resolve_step (step self) (shape1 Xy))%Z ->
  (resolve_target (n_features_to_select self) (shape1 Xy) < Z.of_nat (shape1 Xy))%Z ->
  get_coefs (fit_on Xy (arange (shape1 Xy))) = Some coefs ->
  has_columns m coefs ->
  shape1 Xy < m ->
  0 < fuel ->
  RFA__fit argsort self Xy step_score fuel = Raises IndexError (Some (init_state Xy)).
Proof.
  intros Hperm Hstep Htarget Hcoefs Hcols Hm Hfuel. unfold RFA__fit, fit_resolved.
  destruct (Z.leb_spec (resolve_step (step self) (shape1 Xy)) 0); [lia|].
  destruct fuel as [|fuel]; [lia|]. simpl.
  assert (loop_cond (resolve_target (n_features_to_select self) (shape1 Xy))
            (init_state Xy) = true) as ->.
  { unfold loop_cond, init_state. simpl. rewrite np_sum_replicate_true.
    by apply Z.ltb_lt. }
  rewrite score_step_init.
  assert (loop_body argsort Xy
            (resolve_target (n_features_to_select self) (shape1 Xy))
            (resolve_step (step self) (shape1 Xy)) step_score (init_state Xy)
          = Raise IndexError) as ->; [|done].
  unfold loop_body. simpl support_. rewrite where_replicate_true, Hcoefs.
  assert (arr_empty coefs = false) as Hne.
  { apply (has_columns_nonempty _ _ Hcols). lia. }
  destruct (get_ranks argsort coefs) as [ranks|] eqn:Hranks;
    [|by rewrite get_ranks_nonempty in Hranks].
  pose proof (get_ranks_permutation _ _ _ _ Hperm Hcols Hranks) as Hp.
  simpl. destruct (fancy_index (arange (shape1 Xy)) ranks) as [picked|e] eqn:Hpicked.
  - exfalso. apply fancy_index_Ok in Hpicked as [_ Hall].
    assert (shape1 Xy ∈ ranks) as Hin.
    { rewrite Hp. apply elem_of_seq. lia. }
    apply list_elem_of_lookup in Hin as [p Hin].
    destruct (Hall p _ Hin) as [_ Hsome].
    apply lookup_lt_is_Some in Hsome. unfold arange in Hsome.
    rewrite length_seq in Hsome. lia.
  - revert Hpicked. unfold fancy_index. by destruct (mapM _ _); intros [= <-].
Qed.

Lemma surplus_importances_raise_witness :
  RFA__fit Numpy.argsort rfa_1_1 Xy3_padded None 1
  = Raises IndexError (Some (init_state Xy3_padded)).
Proof.
  apply (surplus_importances_raise Numpy.argsort rfa_1_1 Xy3_padded None 1
           (Arr1 (replicate 4 (Fin 1))) 4).
  - apply NumpyFacts.argsort_is_permutation.
  - reflexivity.
  - simpl. lia.
  - reflexivity.
  - reflexivity.
  - simpl. lia.
  - lia.
Defined.

(** ** How many features the cross-validated selector keeps *)



(** The same three folds, evaluated: the summed trajectory, the position
    [np.argmax] returns, the number of features kept and the grid. *)
Example float_sums_decide_the_selection :
  np_sum_axis0 [Fin double_0_3; Fin double_0_1]
    [[Fin double_0_2; Fin double_0_2]; [Fin double_0_1; Fin double_0_3]]
  = Ok [Fin (5404319552844595 # 9007199254740992);
        Fin (1351079888211149 # 2251799813685248)] /\
  np_argmax [Fin (5404319552844595 # 9007199254740992);
             Fin (1351079888211149 # 2251799813685248)] = 1 /\
  exists a,
    RFACV_fit Numpy.argsort rfacv_floats Xy3 3 = Returns a /\
    cv_n_features_ a = 1 /\
    cv_support_ a = [false; false; true] /\
    grid_scores_ a = [Fin (7205759403792795 # 36028797018963968);
                      Fin (7205759403792793 # 36028797018963968)].
Proof.
  split; [vm_compute; reflexivity|]. split; [vm_compute; reflexivity|].
  eexists. split; [vm_compute; reflexivity|]. repeat split.
Qed.

(** ** A fold that fails *)

Lemma all_folds_first_failure (argsort : list float64 -> list nat) (rfa : RFA)
    (n : nat) (fuel : nat) (pre : list fold) (f : fold) (post : list fold)
    (e : exn) (locals : option state) :
  Forall (fun g => exists tr, rfa_single_fit argsort rfa n g fuel = Returns tr) pre ->
  rfa_single_fit argsort rfa n f fuel = Raises e locals ->
  all_folds argsort rfa n (pre ++ f :: post) fuel = Raises e locals.
Proof.
  intros Hpre Hf. induction Hpre as [|g pre [tr Hg] _ IH]; simpl.
  - by rewrite Hf.
  - by rewrite Hg, IH.
Qed.

(** X11. The folds are evaluated in order and the first one whose run
    raises ends [RFACV.fit] with that exception: the folds after it and the
    final run on the whole data do not change the outcome. *)
Theorem fold_failure_propagates (argsort : list float64 -> list nat)
    (self : RFACV) (Xy : training) (fuel : nat)
    (pre : list fold) (f : fold) (post : list fold)
    (e : exn) (locals : option state) :
  (0 < resolve_step (cv_step self) (shape1 Xy))%Z ->
  split (cv self) = pre ++ f :: post ->
  Forall
    (fun g => exists tr,
       rfa_single_fit argsort
         {| n_features_to_select := Some 1%Z; step := cv_step self |}
         (shape1 Xy) g fuel = Returns tr) pre ->
  rfa_single_fit argsort
    {| n_features_to_select := Some 1%Z; step := cv_step self |}
    (shape1 Xy) f fuel = Raises e locals ->
  RFACV_fit argsort self Xy fuel = Raises e locals.
Proof.
  intros Hstep Hsplit Hpre Hf. unfold RFACV_fit.
  destruct (Z.leb_spec (resolve_step (cv_step self) (shape1 Xy)) 0); [lia|].
  rewrite Hsplit.
  by rewrite (all_folds_first_failure _ _ _ _ pre f post e locals Hpre Hf).
Qed.

Lemma fold_failure_propagates_witness :
  RFACV_fit Numpy.argsort rfacv_failing Xy3 3
  = Raises RuntimeError
      (Some (init_state {| shape1 := 3; fit_on := blind_fit |})).
Proof.
  apply (fold_failure_propagates Numpy.argsort rfacv_failing Xy3 3
           [fold_count] fold_blind [fold_count]).
  - reflexivity.
  - reflexivity.
  - constructor; [|constructor]. eexists. vm_compute. reflexivity.
  - vm_compute. reflexivity.
Defined.

(** ** Which features a pass takes *)

Lemma sorted_keys_lookup (ks : list float64) (a b : nat) (x y : float64) :
  sorted_keys ks = true -> a < b ->
  ks !! a = Some x -> ks !! b = Some y -> Numpy.f64_lt y x = false.
Proof.
  revert a b. induction ks as [|k ks IH]; intros a b Hs Hab Ha Hb; [done|].
  simpl in Hs. apply andb_prop in Hs as [Hhead Htail].
  destruct b as [|b]; [lia|]. simpl in Hb. destruct a as [|a].
  - simpl in Ha. injection Ha as ->.
    rewrite forallb_forall in Hhead.
    apply negb_true_iff, Hhead, list_elem_of_In. by eapply list_elem_of_lookup_2.
  - simpl in Ha. eapply (IH a b); eauto. lia.
Qed.

(** X12. A pass is greedy with respect to the keys it computes and the
    order [np.argsort] returns for them: when that order is a sorted
    permutation of the keys (the negated float64 squares of the importances,
    summed over the outputs), no candidate that the pass leaves behind has a
    smaller key than a feature it moves. The keys are float results: two
    importances whose squares round to the same double, or underflow to
    zero, have equal keys, and between equal keys the order of [np.argsort]
    decides. *)
Theorem batch_takes_smallest_keys (argsort : list float64 -> list nat)
    (Xy : training) (target istep : Z) (step_score : option hook)
    (i : nat) (st st' : state) (coefs : ndarray) (p p' j j' : nat) :
  after argsort Xy target istep step_score i = Some st ->
  after argsort Xy target istep step_score (S i) = Some st' ->
  get_coefs (fit_on Xy (bool_index (arange (shape1 Xy)) (support_ st))) = Some coefs ->
  argsort (sort_keys coefs) ≡ₚ seq 0 (np_sum (support_ st)) ->
  sorted_keys (keys_in_order (sort_keys coefs) (argsort (sort_keys coefs))) = true ->
  bool_index (arange (shape1 Xy)) (support_ st) !! p = Some j ->
  bool_index (arange (shape1 Xy)) (support_ st) !! p' = Some j' ->
  support_added_ st' !! j = Some true ->
  support_ st' !! j' = Some true ->
  Numpy.f64_lt (default NaN (sort_keys coefs !! p'))
               (default NaN (sort_keys coefs !! p)) = false.
Proof.
  intros Hi Hi' Hcoefs Hperm Hsorted Hp Hp' Hj Hj'.
  pose proof (after_well_formed _ _ _ _ _ _ _ Hi) as (Hl & _ & _ & Hc).
  apply after_S in Hi' as (st0 & H0 & _ & Hb).
  rewrite Hi in H0. injection H0 as <-.
  apply loop_body_Ok in Hb
    as (coefs0 & ranks & picked & batch & Hcoefs0 & Hranks & Hpicked & Hbatch
        & Hsup & _ & Hadd & _).
  rewrite Hcoefs in Hcoefs0. injection Hcoefs0 as <-.
  apply get_ranks_Ok in Hranks as [_ Hranks]. fold (sort_keys coefs) in Hranks.
  subst ranks.
  set (features := bool_index (arange (shape1 Xy)) (support_ st)) in *.
  set (ranks := argsort (sort_keys coefs)) in *.
  assert (length features = np_sum (support_ st)) as Hlen.
  { apply length_bool_index. unfold arange. by rewrite length_seq. }
  assert (NoDup features) as Hnd by (by apply NoDup_where).
  destruct (slice_to_take (Z.min istep (Z.of_nat (np_sum (support_ st)) - target))
              picked) as [m Hm].
  rewrite Hm in Hbatch.
  apply fancy_index_Ok in Hpicked as [Hlp Hall].
  (* the moved feature is in the batch *)
  assert (j ∈ batch) as Hjb.
  { destruct (decide (j ∈ batch)) as [|Hn]; [done|]. exfalso.
    rewrite Hadd, lookup_assign_at in Hj. rewrite decide_False in Hj by done.
    assert (support_ st !! j = Some true) as Hs.
    { apply (elem_of_where (shape1 Xy)); [done|].
      by eapply list_elem_of_lookup_2. }
    rewrite Hc, list_lookup_fmap, Hs in Hj. done. }
  (* the feature left behind is not *)
  assert (j' ∉ batch) as Hjb'.
  { intros Hin. rewrite Hsup, lookup_assign_at in Hj'.
    rewrite decide_True in Hj' by done.
    destruct (support_ st !! j'); done. }
  rewrite Hbatch in Hjb, Hjb'.
  apply elem_of_take in Hjb as (a & Ha & Ham).
  destruct (lookup_lt_is_Some_2 ranks a) as [ra Hra].
  { rewrite <- Hlp. by eapply lookup_lt_Some. }
  destruct (Hall a ra Hra) as [Hpa _]. rewrite Ha in Hpa.
  assert (ra = p) as ->.
  { eapply (proj1 (NoDup_alt features)); eauto. }
  assert (p' ∈ ranks) as Hin.
  { rewrite Hperm. apply elem_of_seq.
    apply lookup_lt_Some in Hp'. lia. }
  apply list_elem_of_lookup in Hin as [b Hb].
  destruct (Hall b p' Hb) as [Hpb _]. rewrite Hp' in Hpb.
  assert (a < b) as Hab.
  { destruct (decide (a < b)) as [|Hge]; [done|]. exfalso. apply Hjb'.
    apply elem_of_take. exists b. split; [done|lia]. }
  eapply (sorted_keys_lookup _ a b); [exact Hsorted|exact Hab| |].
  - unfold keys_in_order. by rewrite list_lookup_fmap, Hra.
  - unfold keys_in_order. by rewrite list_lookup_fmap, Hb.
Qed.

Lemma batch_takes_smallest_keys_witness :
  Numpy.f64_lt
    (default NaN (sort_keys (Arr1 [Fin 0; Fin 1; Fin 2]) !! 0))
    (default NaN (sort_keys (Arr1 [Fin 0; Fin 1; Fin 2]) !! 2)) = false.
Proof.
  apply (batch_takes_smallest_keys Numpy.argsort Xy3 1 1 None 0
           (init_state Xy3) Xy3_after1 (Arr1 [Fin 0; Fin 1; Fin 2]) 2 0 2 0).
  - reflexivity.
  - vm_compute. reflexivity.
  - reflexivity.
  - exact (NumpyFacts.argsort_is_permutation (sort_keys (Arr1 [Fin 0; Fin 1; Fin 2]))).
  - vm_compute. reflexivity.
  - reflexivity.
  - reflexivity.
  - reflexivity.
  - reflexivity.
Defined.

(** The squares of [1e-200] and [2e-200] both underflow to zero: the keys
    are equal and feature 0 is ranked first, although the importance of
    feature 1 is the larger one. *)
Example underflow_makes_equal_keys :
  sort_keys (Arr1 [Fin double_1em200; Fin double_2em200]) = [Fin 0; Fin 0] /\
  get_ranks Numpy.argsort (Arr1 [Fin double_1em200; Fin double_2em200]) = Ok [0; 1].
Proof. vm_compute. split; reflexivity. Qed.

(** ** The sign of the importances *)

Lemma f64_sqr_neg (x : float64) : f64_sqr (f64_neg x) = f64_sqr x.
Proof.
  destruct x as [[a d]| | |]; try done. simpl. unfold Qmult, Qopp. simpl.
  by rewrite Z.mul_opp_opp.
Qed.

Lemma same_up_to_sign_isfinite (x y : float64) :
  same_up_to_sign x y -> isfinite y = isfinite x.
Proof. intros [->| ->]; [done|by destruct x]. Qed.

Lemma same_up_to_sign_sqr (x y : float64) :
  same_up_to_sign x y -> f64_sqr y = f64_sqr x.
Proof. intros [->| ->]; [done|apply f64_sqr_neg]. Qed.

Lemma same_up_to_sign_sqr_nan_to_num (x y : float64) :
  same_up_to_sign x y -> f64_sqr (nan_to_num1 y) = f64_sqr (nan_to_num1 x).
Proof.
  intros [->| ->]; [done|].
  destruct x as [q| | |]; [apply (f64_sqr_neg (Fin q))| | |done].
  - apply (f64_sqr_neg (Fin f64_max)).
  - symmetry. apply (f64_sqr_neg (Fin f64_max)).
Qed.

Lemma Forall2_fmap_eq {A B} (R : A -> A -> Prop) (f : A -> B) (v v' : list A) :
  (forall x y, R x y -> f y = f x) -> Forall2 R v v' -> f <$> v' = f <$> v.
Proof.
  intros Hf. induction 1 as [|x y v v' Hxy _ IH]; [done|].
  rewrite !fmap_cons. by rewrite (Hf x y Hxy), IH.
Qed.

Lemma Forall2_forallb_eq {A} (R : A -> A -> Prop) (q : A -> bool) (v v' : list A) :
  (forall x y, R x y -> q y = q x) -> Forall2 R v v' -> forallb q v' = forallb q v.
Proof.
  intros Hq. induction 1 as [|x y v v' Hxy _ IH]; [done|].
  cbn [forallb]. by rewrite (Hq x y Hxy), IH.
Qed.

Lemma sign_flipped_arr_map (f : float64 -> float64) (c c' : ndarray) :
  (forall x y, same_up_to_sign x y -> f y = f x) ->
  sign_flipped c c' -> arr_map f c' = arr_map f c.
Proof.
  intros Hf. destruct c as [v|rows], c' as [v'|rows']; simpl; try done.
  - intros H. f_equal. by eapply Forall2_fmap_eq.
  - intros H. f_equal. eapply Forall2_fmap_eq; [|exact H].
    intros r r' Hr. by eapply Forall2_fmap_eq.
Qed.

Lemma sign_flipped_isfinite (c c' : ndarray) :
  sign_flipped c c' -> arr_all isfinite c' = arr_all isfinite c.
Proof.
  destruct c as [v|rows], c' as [v'|rows']; simpl; try done.
  - apply Forall2_forallb_eq. apply same_up_to_sign_isfinite.
  - apply Forall2_forallb_eq. intros r r'.
    apply Forall2_forallb_eq. apply same_up_to_sign_isfinite.
Qed.

Lemma sign_flipped_empty (c c' : ndarray) :
  sign_flipped c c' -> arr_empty c' = arr_empty c.
Proof.
  destruct c as [v|rows], c' as [v'|rows']; simpl; try done.
  - by destruct 1.
  - apply Forall2_forallb_eq. intros r r'. by destruct 1.
Qed.

(** Flipping signs in the signal, entry by entry, does not change the order
    of the features. *)
Lemma get_ranks_sign (argsort : list float64 -> list nat) (c c' : ndarray) :
  sign_flipped c c' -> get_ranks argsort c' = get_ranks argsort c.
Proof.
  intros H. rewrite !get_ranks_eq.
  rewrite (sign_flipped_empty _ _ H), (sign_flipped_isfinite _ _ H).
  destruct (arr_empty c); [done|]. do 3 f_equal.
  destruct (arr_all isfinite c).
  - by apply sign_flipped_arr_map; [apply same_up_to_sign_sqr|].
  - unfold nan_to_num.
    assert (forall a, arr_map f64_sqr (arr_map nan_to_num1 a)
                      = arr_map (fun x => f64_sqr (nan_to_num1 x)) a) as Hcomp.
    { intros [v|rows]; simpl; f_equal.
      - by rewrite <- list_fmap_compose.
      - rewrite <- list_fmap_compose. apply list_fmap_ext. intros _ r _. simpl.
        by rewrite <- list_fmap_compose. }
    rewrite !Hcomp.
    by apply sign_flipped_arr_map; [apply same_up_to_sign_sqr_nan_to_num|].
Qed.

Section Sign.

Variable argsort : list float64 -> list nat.
Variables Xy1 Xy2 : training.
Variable target istep : Z.

Hypothesis same_shape : shape1 Xy1 = shape1 Xy2.
Hypothesis same_signal : signals_differ_in_sign (fit_on Xy1) (fit_on Xy2).

Lemma loop_body_sign (st : state) :
  loop_body argsort Xy2 target istep None st
  = loop_body argsort Xy1 target istep None st.
Proof using same_shape same_signal.
  unfold loop_body, score_step, score_previous. rewrite same_shape.
  destruct (same_signal (bool_index (arange (shape1 Xy2)) (support_ st)))
    as [c c' Hc|]; [|done].
  by rewrite (get_ranks_sign argsort c c' Hc).
Qed.

Lemma while_loop_sign (fuel : nat) (st : state) :
  while_loop argsort Xy2 target istep None fuel st
  = while_loop argsort Xy1 target istep None fuel st.
Proof using same_shape same_signal.
  revert st. induction fuel as [|fuel IH]; intros st; simpl; [done|].
  rewrite loop_body_sign.
  destruct (loop_cond target st); [|done].
  destruct (loop_body argsort Xy1 target istep None st); [apply IH|done].
Qed.

End Sign.

Lemma alternating_fit_differs_in_sign : signals_differ_in_sign lin_fit alternating_fit.
Proof.
  intros features. constructor. simpl.
  induction features as [|i features IH]; [constructor|].
  rewrite !fmap_cons. constructor; [|exact IH].
  destruct (Nat.even i); [by left|by right].
Qed.

(** X13. Only the squares of the importances are used: when the signals of
    two estimators differ, at every fit, at most in the signs of their
    entries (each entry on its own), [fit] returns for the one as it does
    for the other, with the same mask, the same ranking and the same count. *)
Theorem sign_of_importance_ignored (argsort : list float64 -> list nat)
    (self : RFA) (Xy1 Xy2 : training) (fuel : nat) (a1 : fit_attrs) :
  shape1 Xy1 = shape1 Xy2 ->
  signals_differ_in_sign (fit_on Xy1) (fit_on Xy2) ->
  RFA_fit argsort self Xy1 fuel = Returns a1 ->
  exists a2,
    RFA_fit argsort self Xy2 fuel = Returns a2 /\
    self_support_ a2 = self_support_ a1 /\
    self_ranking_ a2 = self_ranking_ a1 /\
    self_n_features_ a2 = self_n_features_ a1.
Proof.
  intros Hshape Hsig. unfold RFA_fit, RFA__fit, fit_resolved.
  rewrite <- Hshape.
  destruct (_ <=? 0)%Z; [done|].
  rewrite (while_loop_sign argsort Xy1 Xy2 _ _ Hshape Hsig).
  assert (init_state Xy2 = init_state Xy1) as -> by (unfold init_state; by rewrite Hshape).
  destruct (while_loop _ _ _ _ _ _ _) as [st| |]; try done.
  intros [= <-]. eexists. split; [done|]. done.
Qed.

(** Coefficients 0, 1, 2 against coefficients 0, -1, 2. *)
Lemma sign_of_importance_ignored_witness :
  exists a2,
    RFA_fit Numpy.argsort rfa_1_1 Xy3_alternating 3 = Returns a2 /\
    self_support_ a2 = self_support_ Xy3_attrs /\
    self_ranking_ a2 = self_ranking_ Xy3_attrs /\
    self_n_features_ a2 = self_n_features_ Xy3_attrs.
Proof.
  apply (sign_of_importance_ignored Numpy.argsort rfa_1_1 Xy3 Xy3_alternating 3
           Xy3_attrs).
  - reflexivity.
  - apply alternating_fit_differs_in_sign.
  - vm_compute. reflexivity.
Defined.

(** ** Runs with different targets *)

Section Nested.

Variable argsort : list float64 -> list nat.
Variable Xy : training.
Variable t1 t2 istep : Z.
Variable step_score : option hook.

Hypothesis argsort_ok : argsort_permutes argsort.
Hypothesis estimator_ok : exposes_importance (fit_on Xy).
Hypothesis step_pos : (0 < istep)%Z.
Hypothesis t1_nonneg : (0 <= t1)%Z.
Hypothesis t1_le_t2 : (t1 <= t2)%Z.

Local Abbreviation n := (shape1 Xy).
Local Abbreviation after1 := (after argsort Xy t1 istep step_score).
Local Abbreviation after2 := (after argsort Xy t2 istep step_score).

(** A pass of the run with the larger target that is not its last takes a
    full batch, and so does the same pass of the other run. *)
Lemma loop_body_full_batch (st st' : state) :
  well_formed n st ->
  loop_cond t2 st = true ->
  loop_body argsort Xy t2 istep step_score st = Ok st' ->
  loop_cond t2 st' = true ->
  loop_body argsort Xy t1 istep step_score st = Ok st'.
Proof using argsort_ok estimator_ok step_pos t1_nonneg t1_le_t2.
  intros Hwf Hcond Hb Hcond'.
  destruct (loop_body_progress argsort Xy t2 istep step_score
              argsort_ok estimator_ok step_pos ltac:(lia) st Hwf Hcond)
    as (st2 & Hb2 & Hcount).
  rewrite Hb in Hb2. injection Hb2 as <-.
  unfold loop_cond in Hcond, Hcond'.
  apply Z.ltb_lt in Hcond. apply Z.ltb_lt in Hcond'.
  rewrite <- Hb. unfold loop_body.
  replace (Z.min istep (Z.of_nat (np_sum (support_ st)) - t1))
    with (Z.min istep (Z.of_nat (np_sum (support_ st)) - t2)) by lia.
  done.
Qed.

(** Up to the last pass of the run with the larger target the two runs
    go through the same states. *)
Lemma prefix_agrees (i : nat) (st : state) :
  after2 i = Some st -> loop_cond t2 st = true -> after1 i = Some st.
Proof using argsort_ok estimator_ok step_pos t1_nonneg t1_le_t2.
  revert st. induction i as [|i IH]; intros st Hi Hcond; [done|].
  pose proof Hi as Hi'.
  apply after_S in Hi' as (st0 & H0 & Hcond0 & Hb).
  pose proof (after_well_formed _ _ _ _ _ _ _ H0) as Hwf0.
  simpl. rewrite (IH st0 H0 Hcond0).
  assert (loop_cond t1 st0 = true) as ->.
  { unfold loop_cond in *. apply Z.ltb_lt. apply Z.ltb_lt in Hcond0. lia. }
  by rewrite (loop_body_full_batch st0 st Hwf0 Hcond0 Hb Hcond).
Qed.

(** A feature moved by pass [i] of the run with the larger target is moved
    by pass [i] of the other run as well. *)
Lemma moved_in_smaller_target (i j : nat) :
  moved_in argsort Xy t2 istep step_score i j ->
  moved_in argsort Xy t1 istep step_score i j.
Proof using argsort_ok estimator_ok step_pos t1_nonneg t1_le_t2.
  intros (s & s' & Hi & Hs & Hs' & Hbefore & Hafter).
  destruct i as [|i]; [lia|]. simpl in Hs.
  apply after_S in Hs' as (s0 & H0 & Hcond & Hb).
  rewrite Hs in H0. injection H0 as <-.
  pose proof (after_well_formed _ _ _ _ _ _ _ Hs) as Hwf.
  pose proof (prefix_agrees i s Hs Hcond) as Hs1.
  assert (loop_cond t1 s = true) as Hcond1.
  { unfold loop_cond in *. apply Z.ltb_lt. apply Z.ltb_lt in Hcond. lia. }
  destruct (loop_body_progress argsort Xy t1 istep step_score
              argsort_ok estimator_ok step_pos t1_nonneg s Hwf Hcond1)
    as (s1' & Hb1 & _).
  exists s, s1'. split; [lia|]. split; [exact Hs1|]. split.
  { simpl. by rewrite Hs1, Hcond1, Hb1. }
  split; [exact Hbefore|].
  apply loop_body_Ok in Hb
    as (coefs & ranks & picked & batch & Hcoefs & Hranks & Hpicked & Hbatch
        & _ & _ & Hadd & _).
  apply loop_body_Ok in Hb1
    as (coefs1 & ranks1 & picked1 & batch1 & Hcoefs1 & Hranks1 & Hpicked1 & Hbatch1
        & _ & _ & Hadd1 & _).
  rewrite Hcoefs in Hcoefs1. injection Hcoefs1 as <-.
  rewrite Hranks in Hranks1. injection Hranks1 as <-.
  rewrite Hpicked in Hpicked1. injection Hpicked1 as <-.
  unfold loop_cond in Hcond. apply Z.ltb_lt in Hcond.
  assert (j ∈ batch) as Hjb.
  { destruct (decide (j ∈ batch)) as [|Hn]; [done|]. exfalso.
    rewrite Hadd, lookup_assign_at, decide_False in Hafter by done. congruence. }
  assert (j ∈ batch1) as Hjb1.
  { rewrite Hbatch in Hjb. rewrite Hbatch1. unfold slice_to in *.
    destruct (Z.leb_spec 0 (Z.min istep (Z.of_nat (np_sum (support_ s)) - t2)));
      [|lia].
    destruct (Z.leb_spec 0 (Z.min istep (Z.of_nat (np_sum (support_ s)) - t1)));
      [|lia].
    apply elem_of_take in Hjb as (a & Ha & Hlt).
    apply elem_of_take. exists a. split; [done|lia]. }
  rewrite Hadd1, lookup_assign_at, decide_True by done.
  by rewrite Hbefore.
Qed.

End Nested.

(** X14. Selections are nested: on valid input, with the same data and
    step, every feature selected with the larger [n_features_to_select] is
    also selected with the smaller one, and has the same rank in both runs. *)
Theorem selections_nested (argsort : list float64 -> list nat) (Xy : training)
    (s : Q) (t1 t2 : Z) (step_score : option hook) (fuel : nat) :
  argsort_permutes argsort ->
  exposes_importance (fit_on Xy) ->
  (0 < resolve_step s (shape1 Xy))%Z ->
  (0 <= t1 <= t2)%Z ->
  shape1 Xy <= fuel ->
  exists a1 a2,
    RFA__fit argsort {| n_features_to_select := Some t1; step := s |} Xy
      step_score fuel = Returns a1 /\
    RFA__fit argsort {| n_features_to_select := Some t2; step := s |} Xy
      step_score fuel = Returns a2 /\
    forall j,
      self_support_ a2 !! j = Some true ->
      self_support_ a1 !! j = Some true /\
      self_ranking_ a1 !! j = self_ranking_ a2 !! j.
Proof.
  intros Hperm Hexp Hstep [Ht1 Ht12] Hfuel. unfold RFA__fit. simpl.
  destruct (fit_resolved_valid argsort Xy t1 (resolve_step s (shape1 Xy))
              step_score fuel Hperm Hexp Hstep Ht1 Hfuel) as (st1' & Hfit1 & _).
  destruct (fit_resolved_valid argsort Xy t2 (resolve_step s (shape1 Xy))
              step_score fuel Hperm Hexp Hstep ltac:(lia) Hfuel)
    as (st2' & Hfit2 & _).
  destruct (fit_resolved_Returns _ _ _ _ _ _ _ Hfit1) as (k1 & st1 & Hpass1 & Hfin1).
  destruct (fit_resolved_Returns _ _ _ _ _ _ _ Hfit2) as (k2 & st2 & Hpass2 & Hfin2).
  rewrite Hfit1, Hfit2, Hfin1, Hfin2.
  eexists _, _. split; [done|]. split; [done|]. simpl.
  intros j Hj.
  pose proof Hpass1 as [Hk1 _]. pose proof Hpass2 as [Hk2 _].
  pose proof (after_well_formed _ _ _ _ _ _ _ Hk2) as (Hl2 & _ & _ & Hc2).
  assert (j < shape1 Xy) as Hjn.
  { apply lookup_lt_Some in Hj. rewrite Hc2, length_fmap in Hj. lia. }
  destruct (after_ranking argsort Xy t2 _ step_score k2 st2 j Hk2 Hjn)
    as [[Hfalse _]|(_ & i0 & Hi0 & Hmoved & Hrank2)]; [congruence|].
  pose proof (moved_in_smaller_target argsort Xy t1 t2 _ step_score
                Hperm Hexp Hstep Ht1 Ht12 i0 j Hmoved) as Hmoved1.
  pose proof Hmoved1 as (sa & sb & _ & _ & Hsb & _ & Hadded).
  pose proof (passes_last _ _ _ _ _ _ _ _ _ Hpass1 Hsb) as Hle.
  split.
  - by eapply (after_added_mono argsort Xy t1 _ step_score i0 k1 sb st1 j).
  - rewrite Hrank2.
    by eapply (moved_in_ranking argsort Xy t1 _ step_score i0 k1 j st1).
Qed.

Lemma selections_nested_witness :
  exists a1 a2,
    RFA__fit Numpy.argsort {| n_features_to_select := Some 1%Z; step := 3 |} Xy10
      None 10 = Returns a1 /\
    RFA__fit Numpy.argsort {| n_features_to_select := Some 5%Z; step := 3 |} Xy10
      None 10 = Returns a2 /\
    forall j,
      self_support_ a2 !! j = Some true ->
      self_support_ a1 !! j = Some true /\
      self_ranking_ a1 !! j = self_ranking_ a2 !! j.
Proof.
  apply (selections_nested Numpy.argsort Xy10 3 1 5 None 10).
  - apply NumpyFacts.argsort_is_permutation.
  - apply lin_fit_exposes.
  - reflexivity.
  - lia.
  - simpl. lia.
Defined.
